(** * EV charging atlas: the route planner scripts

    The repository builds an HTML page and embeds a JavaScript route planner
    in it (the Python files hold the script as f-string templates, so the
    doubled braces of the templates are single braces of the script).  This
    development embeds that script:

    - [Geo]      the distance helpers of the v6 script
                 ([haversineKm], [minDistKm], the proximity loop of [doRoute]);
    - [Suggest]  the geocoder lookup with its cache ([nominatimSuggest],
                 v6 and the snippet file that adds the label clean-up);
    - [V6]       the page of the v6 script as an event-driven machine
                 ([doRoute], the clear button);
    - [V7]       the page of the v7 script ([findRoute] and its gap loop).

    JavaScript numbers are idealised as real numbers: rounding, NaN and
    overflow are outside the model.  The one infinite value the script uses
    ([Infinity], the start value of [minDistKm]) is modelled explicitly. *)

From Stdlib Require Import Reals Machin Lra Lia List String Ascii Bool.
From stdpp Require Import gmap strings sorting.

Local Open Scope R_scope.

(** Comparisons of real numbers, as decisions. *)
#[global] Instance Rlt_decision (x y : R) : Decision (x < y) := Rlt_dec x y.
#[global] Instance Rle_decision (x y : R) : Decision (x <= y) := Rle_dec x y.
#[global] Instance Rgt_decision (x y : R) : Decision (x > y) := Rgt_dec x y.
#[global] Instance Rge_decision (x y : R) : Decision (x >= y) := Rge_dec x y.

(* ================================================================== *)
(** * Distances (v6 script) *)
(* ================================================================== *)

Module Geo.

(** A number that may be JavaScript's [Infinity]. *)
Inductive xnum : Type :=
| Fin (x : R)
| Infinity.

(** [d < best] where [d] is finite. *)
Definition lt_x (d : R) (best : xnum) : bool :=
  match best with
  | Fin b => bool_decide (d < b)
  | Infinity => true
  end.

(** [dkm <= thr] where [thr] is finite. *)
Definition le_x (dkm : xnum) (thr : R) : bool :=
  match dkm with
  | Fin d => bool_decide (d <= thr)
  | Infinity => false
  end.

(** [Math.atan2(y, x)] on real arguments. *)
Definition atan2 (y x : R) : R :=
  if Rlt_dec 0 x then atan (y / x)
  else if Rlt_dec x 0 then
         (if Rle_dec 0 y then atan (y / x) + PI else atan (y / x) - PI)
  else if Rlt_dec 0 y then PI / 2
  else if Rlt_dec y 0 then - (PI / 2)
  else 0.

(** [const R = 6371.0;] *)
Definition EARTH_R : R := 6371.

(** The haversine term [a] of [haversineKm]. *)
Definition hav_a (lat1 lon1 lat2 lon2 : R) : R :=
  let dLat := (lat2 - lat1) * PI / 180 in
  let dLon := (lon2 - lon1) * PI / 180 in
  (sin (dLat / 2)) ^ 2
  + cos (lat1 * PI / 180) * cos (lat2 * PI / 180) * (sin (dLon / 2)) ^ 2.

(** [function haversineKm(lat1, lon1, lat2, lon2)].  The square root of
    the reals is 0 on a negative number, where [Math.sqrt] gives NaN; for
    latitudes between the poles both arguments are non-negative. *)
Definition haversineKm (lat1 lon1 lat2 lon2 : R) : R :=
  let a := hav_a lat1 lon1 lat2 lon2 in
  let c := 2 * atan2 (sqrt a) (sqrt (1 - a)) in
  EARTH_R * c.

(** A route vertex as OSRM's GeoJSON gives it: [p[0]] is the longitude,
    [p[1]] the latitude. *)
Record vertex : Type := Vertex { v_lon : R; v_lat : R }.

(** One iteration of the loop of [minDistKm]. *)
Definition minDist_step (lat lon : R) (best : xnum) (p : vertex) : xnum :=
  let d := haversineKm lat lon (v_lat p) (v_lon p) in
  if lt_x d best then Fin d else best.

(** [function minDistKm(lat, lon, coords)]: [best] starts at [Infinity]. *)
Definition minDistKm (lat lon : R) (coords : list vertex) : xnum :=
  fold_left (minDist_step lat lon) coords Infinity.

(** An entry of [EV_POINTS], with the fields the script reads. *)
Record point : Type := Point { pt_lat : R; pt_lon : R; pt_fast : bool }.

(** A circle marker of the near layer: position and colour. *)
Record marker : Type := Marker { mk_lat : R; mk_lon : R; mk_color : string }.

Definition marker_of (pt : point) : marker :=
  Marker (pt_lat pt) (pt_lon pt)
         (if pt_fast pt then "#2563eb" else "#22c55e")%string.

(** The body of [EV_POINTS.forEach(pt => ...)] in [doRoute]: the
    accumulator is the pair of [nearPts] (heat-map positions) and the
    markers added to [nearLayer] so far. *)
Definition near_step (thr : R) (coords : list vertex)
    (acc : list (R * R) * list marker) (pt : point)
  : list (R * R) * list marker :=
  let dkm := minDistKm (pt_lat pt) (pt_lon pt) coords in
  let nearPts := if le_x dkm thr then fst acc ++ [(pt_lat pt, pt_lon pt)]
                 else fst acc in
  let layer := if le_x dkm thr then snd acc ++ [marker_of pt] else snd acc in
  (nearPts, layer).

Definition near_loop (thr : R) (points : list point) (coords : list vertex)
  : list (R * R) * list marker :=
  fold_left (near_step thr coords) points ([], []).

(** The points the loop selects, as charger points. *)
Definition is_near (thr : R) (coords : list vertex) (pt : point) : bool :=
  le_x (minDistKm (pt_lat pt) (pt_lon pt) coords) thr.

End Geo.

(* ================================================================== *)
(** * Strings of the script *)
(* ================================================================== *)

(** Strings are sequences of ASCII characters; the white space that
    [String.prototype.trim] removes is the ASCII white space. *)
Module Str.

Local Open Scope string_scope.

Fixpoint ltrim (s : string) : string :=
  match s with
  | EmptyString => EmptyString
  | String c s' => if Ascii.is_space c then ltrim s' else s
  end.

Fixpoint rtrim (s : string) : string :=
  match s with
  | EmptyString => EmptyString
  | String c s' =>
      match rtrim s' with
      | EmptyString => if Ascii.is_space c then EmptyString
                       else String c EmptyString
      | r => String c r
      end
  end.

(** [s.trim()] *)
Definition trim (s : string) : string := rtrim (ltrim s).

(** [!s] on a string: only the empty string is falsy. *)
Definition falsy (s : string) : bool :=
  match s with EmptyString => true | _ => false end.

(** [s.split(',')]: the result always has at least one part. *)
Fixpoint split_comma (s : string) : list string :=
  match s with
  | EmptyString => [EmptyString]
  | String c s' =>
      if Ascii.eqb c "," then EmptyString :: split_comma s'
      else match split_comma s' with
           | p :: ps => String c p :: ps
           | [] => [String c EmptyString]
           end
  end.

(** [parts.join(', ')] *)
Definition join_comma (parts : list string) : string := String.concat ", " parts.

(** Case folding of the flag [i] on ASCII letters. *)
Definition lower (c : ascii) : ascii :=
  let n := nat_of_ascii c in
  if (65 <=? n)%nat && (n <=? 90)%nat then ascii_of_nat (n + 32) else c.

Fixpoint prefix_ci (p s : string) : bool :=
  match p, s with
  | EmptyString, _ => true
  | String a p', String b s' => Ascii.eqb (lower a) (lower b) && prefix_ci p' s'
  | String _ _, EmptyString => false
  end.

(** [/p/i.test(s)] for a pattern [p] of letters: [p] occurs in [s], case
    ignored. *)
Fixpoint contains_ci (p s : string) : bool :=
  prefix_ci p s ||
  match s with
  | EmptyString => false
  | String _ s' => contains_ci p s'
  end.

Definition is_digit (c : ascii) : bool :=
  let n := nat_of_ascii c in (48 <=? n)%nat && (n <=? 57)%nat.

(** [/^\d{4}$/.test(s)]: exactly four digits. *)
Definition four_digits (s : string) : bool :=
  match s with
  | String a (String b (String c (String d EmptyString))) =>
      is_digit a && is_digit b && is_digit c && is_digit d
  | _ => false
  end.

End Str.

(* ================================================================== *)
(** * The geocoder lookup and its cache *)
(* ================================================================== *)

(** What an awaited [fetch] followed by [resp.json()] can produce: the
    request is rejected (transport error), or a response arrives with its
    [ok] flag and a body that parses into the expected JSON ([Some]) or
    does not ([None], [resp.json()] rejects or the value has another
    shape). *)
Inductive fetched (A : Type) : Type :=
| NetworkError
| Response (ok : bool) (body : option A).
Arguments NetworkError {A}.
Arguments Response {A} ok body.

Module Suggest.

Local Open Scope string_scope.

(** The second argument of [nominatimSuggest]: ['o'] or ['d']. *)
Inductive which : Type := O | D.

Definition which_str (w : which) : string :=
  match w with O => "o" | D => "d" end.

(** An element of the geocoder's answer; [d_lat] and [d_lon] are the
    numbers [parseFloat] reads from its [lat] and [lon]. *)
Record nominatim_item : Type :=
  Item { display_name : string; d_lat : R; d_lon : R }.

(** [{ label, lat, lon }] *)
Record candidate : Type := Candidate { label : string; lat : R; lon : R }.

(** [const key = which + '|' + q.trim();] *)
Definition cache_key (w : which) (q : string) : string :=
  which_str w +:+ "|" +:+ Str.trim q.

(** How a call of [nominatimSuggest] proceeds up to its first real
    suspension: it returns at once, or it awaits the geocoder's answer to
    the query [q] (limit 5, country code au). *)
Inductive started : Type :=
| Returns (items : list candidate)
| Awaits (q : string).

(** [nominatimSuggest(q, which)] up to [await fetch(url, ...)]. *)
Definition nominatimSuggest_begin
    (geoCache : gmap string (list candidate)) (q : string) (w : which) : started :=
  if Str.falsy q || (String.length q <? 3)%nat then Returns []
  else match geoCache !! cache_key w q with
       | Some items => Returns items
       | None => Awaits q
       end.

(** v6: [data.map(d => ({ label: d.display_name, ... }))] *)
Definition items_of (data : list nominatim_item) : list candidate :=
  map (fun d => Candidate (display_name d) (d_lat d) (d_lon d)) data.

(** v6: [nominatimSuggest] from the answer of the geocoder on: the value
    it returns and the cache it leaves.  Every failure inside [try] ends
    in [catch], which returns [[]] and stores nothing. *)
Definition nominatimSuggest_resume
    (geoCache : gmap string (list candidate)) (q : string) (w : which)
    (r : fetched (list nominatim_item))
  : list candidate * gmap string (list candidate) :=
  match r with
  | Response true (Some data) =>
      let items := items_of data in
      (items, <[cache_key w q := items]> geoCache)
  | _ => ([], geoCache)
  end.

(** v6: a whole call of [nominatimSuggest] against a geocoder [net] that
    answers each query; the third component lists the queries sent. *)
Definition nominatimSuggest
    (net : string -> fetched (list nominatim_item))
    (geoCache : gmap string (list candidate)) (q : string) (w : which)
  : list candidate * gmap string (list candidate) * list string :=
  match nominatimSuggest_begin geoCache q w with
  | Returns items => (items, geoCache, [])
  | Awaits q' =>
      let '(items, cache') := nominatimSuggest_resume geoCache q w (net q') in
      (items, cache', [q'])
  end.

(** [geocodeFirst(label, which)] up to the first real suspension; a missing
    first element ([undefined] or [null]) is [None]. *)
Inductive first_started : Type :=
| FirstIs (c : option candidate)
| FirstAwaits (q : string).

Definition geocodeFirst_begin
    (geoCache : gmap string (list candidate)) (lbl : string) (w : which)
  : first_started :=
  match geoCache !! cache_key w lbl with
  | Some items => FirstIs (head items)
  | None =>
      match nominatimSuggest_begin geoCache lbl w with
      | Returns arr => FirstIs (head arr)
      | Awaits q => FirstAwaits q
      end
  end.

(** [geocodeFirst] from the geocoder's answer on. *)
Definition geocodeFirst_resume
    (geoCache : gmap string (list candidate)) (lbl : string) (w : which)
    (r : fetched (list nominatim_item))
  : option candidate * gmap string (list candidate) :=
  let '(arr, cache') := nominatimSuggest_resume geoCache lbl w r in
  (head arr, cache').

(** ** The snippet file: labels cleaned up and deduplicated *)

(** The label of an item: the parts of [display_name] between commas,
    trimmed, without the parts that mention Australia or are a four-digit
    postcode; the first three, joined. *)
Definition snippet_label (name : string) : string :=
  let parts := map Str.trim (Str.split_comma name) in
  let filtered :=
    List.filter (fun p => negb (Str.contains_ci "Australia" p)
                          && negb (Str.four_digits p)) parts in
  Str.join_comma (firstn 3 filtered).

Definition snippet_items (data : list nominatim_item) : list candidate :=
  map (fun d => Candidate (snippet_label (display_name d)) (d_lat d) (d_lon d)) data.

(** The body of [for (const it of items)]: the accumulator is the pair of
    [unique] and [seen]. *)
Definition unique_step (acc : list candidate * gset string) (it : candidate)
  : list candidate * gset string :=
  if bool_decide (label it ∈ snd acc) then acc
  else ((fst acc ++ [it])%list, {[label it]} ∪ snd acc).

Definition unique_of (items : list candidate) : list candidate :=
  fst (fold_left unique_step items ([], ∅)).

(** The end of the snippet: [geoCache.set(key, unique); return unique;] *)
Definition snippet_store
    (geoCache : gmap string (list candidate)) (q : string) (w : which)
    (data : list nominatim_item)
  : list candidate * gmap string (list candidate) :=
  let unique := unique_of (snippet_items data) in
  (unique, <[cache_key w q := unique]> geoCache).

End Suggest.

(* ================================================================== *)
(** * The routing service *)
(* ================================================================== *)

(** An element of [data.routes]: [geometry] is absent ([None]) or a GeoJSON
    line with its [coordinates]; [distance] is in metres. *)
Record osrm_route : Type :=
  Route { geometry : option (list Geo.vertex); distance : option R }.

(** The JSON of the routing service; [routes] may be absent. *)
Record osrm_data : Type := Osrm { routes : option (list osrm_route) }.

(** The answer that completes a pending request. *)
Inductive net_result : Type :=
| GeoResult (r : fetched (list Suggest.nominatim_item))
| RouteResult (r : fetched osrm_data).

(* ================================================================== *)
(** * The page of the v6 script *)
(* ================================================================== *)

Module V6.

Import Geo Suggest.
Local Open Scope string_scope.

(** [const PROX_KM = 5.0;] (the template prints [ROUTE_PROXIMITY_KM]). *)
Definition PROX_KM : R := 5.

(** The text of [#route-msg]: a fixed text, or the text
    [`Found route (${totalKm.toFixed(0)} km). Chargers within 5.0 km
    highlighted.`] for a given [totalKm]. *)
Inductive message : Type :=
| Text (s : string)
| Found (totalKm : R).

(** A request on the network: the geocoder search for [q], or the driving
    route from [o] to [d] ([overview=full], GeoJSON geometry). *)
Inductive request : Type :=
| GeocodeReq (q : string)
| RouteReq (o d : candidate).

(** An asynchronous function suspended at an [await] of the network (a
    call that is answered from the cache goes on without giving way to
    another event, so only the requests are suspension points; [await
    fetch] and the [await resp.json()] after it count as one, no shared
    state being read or written between them):
    - [TSuggest w q]: the input handler of field [w], inside
      [nominatimSuggest(q, w)];
    - [TGeoO originTxt destTxt]: [doRoute], inside
      [geocodeFirst(originTxt, 'o')];
    - [TGeoD o destTxt]: [doRoute], inside [geocodeFirst(destTxt, 'd')],
      the origin having resolved to [o];
    - [TRoute o d]: [doRoute], at [await fetch(url)] of the route. *)
Inductive task : Type :=
| TSuggest (w : which) (q : string)
| TGeoO (originTxt destTxt : string)
| TGeoD (o : option candidate) (destTxt : string)
| TRoute (o d : candidate).

(** What the map shows on top of the base layers. [routeLayer] holds the
    geometries given to [L.geoJSON]; [mapView] the line last fitted. *)
Record surface : Type := Surface {
  routeLayer : list (option (list vertex));
  nearLayer : list marker;
  nearHeat : option (list (R * R));
  mapView : option (list vertex);
  msg : message
}.

Record page : Type := Page {
  EV_POINTS : list point;       (* const EV_POINTS *)
  heatPlugin : bool;            (* whether L.heatLayer exists *)
  originVal : string;           (* originEl.value *)
  destVal : string;             (* destEl.value *)
  originList : list string;     (* options of #origin-list *)
  destList : list string;       (* options of #dest-list *)
  geoCache : gmap string (list candidate);
  surf : surface;
  pending : gmap nat task;      (* suspended calls, by order of creation *)
  nextId : nat;
  requests : list request       (* the requests sent so far, oldest first *)
}.

Definition with_surf (s : surface) (st : page) : page :=
  Page (EV_POINTS st) (heatPlugin st) (originVal st) (destVal st)
       (originList st) (destList st) (geoCache st) s
       (pending st) (nextId st) (requests st).

Definition with_msg (m : message) (st : page) : page :=
  with_surf (Surface (routeLayer (surf st)) (nearLayer (surf st))
                     (nearHeat (surf st)) (mapView (surf st)) m) st.

Definition with_cache (c : gmap string (list candidate)) (st : page) : page :=
  Page (EV_POINTS st) (heatPlugin st) (originVal st) (destVal st)
       (originList st) (destList st) c (surf st)
       (pending st) (nextId st) (requests st).

Definition with_value (w : which) (s : string) (st : page) : page :=
  Page (EV_POINTS st) (heatPlugin st)
       (match w with O => s | D => originVal st end)
       (match w with O => destVal st | D => s end)
       (originList st) (destList st) (geoCache st) (surf st)
       (pending st) (nextId st) (requests st).

(** [populateDatalist(id, items)] *)
Definition populateDatalist (w : which) (items : list candidate) (st : page) : page :=
  Page (EV_POINTS st) (heatPlugin st) (originVal st) (destVal st)
       (match w with O => map label items | D => originList st end)
       (match w with O => destList st | D => map label items end)
       (geoCache st) (surf st) (pending st) (nextId st) (requests st).

(** The call suspends on the request [rq] as task [t]. *)
Definition suspend (t : task) (rq : request) (st : page) : page :=
  Page (EV_POINTS st) (heatPlugin st) (originVal st) (destVal st)
       (originList st) (destList st) (geoCache st) (surf st)
       (<[nextId st := t]> (pending st)) (S (nextId st))
       (requests st ++ [rq])%list.

(** The suspended call [id] is resumed. *)
Definition resumed (id : nat) (st : page) : page :=
  Page (EV_POINTS st) (heatPlugin st) (originVal st) (destVal st)
       (originList st) (destList st) (geoCache st) (surf st)
       (delete id (pending st)) (nextId st) (requests st).

(** [routeLayer.clearLayers(); nearLayer.clearLayers();
     if (nearHeat) { ... nearHeat = null; }] *)
Definition clear_layers (s : surface) : surface :=
  Surface [] [] None (mapView s) (msg s).

(** The click handler of [#btn-clear]. *)
Definition clear (st : page) : page :=
  let s := clear_layers (surf st) in
  with_surf (Surface (routeLayer s) (nearLayer s) (nearHeat s) (mapView s) (Text "")) st.

(** ** [doRoute], stage by stage *)

(** [doRoute] from [routeLayer.clearLayers()] to its end, for the geometry
    [geo] and the length [totalKm] of the first route.  Fitting the map to
    a line without vertices raises (and reading [geo.coordinates] of an
    absent geometry would), so for such a [geo] the call stops after
    [line.addTo(routeLayer)]. *)
Definition render (geo : option (list vertex)) (totalKm : R) (st : page) : page :=
  let s := clear_layers (surf st) in
  match geo with
  | Some (c :: cs) =>
      let coords := c :: cs in
      let '(nearPts, markers) := near_loop PROX_KM (EV_POINTS st) coords in
      let heat := match nearPts with
                  | [] => None
                  | _ => if heatPlugin st then Some nearPts else None
                  end in
      with_surf (Surface [geo] markers heat (Some coords) (Found totalKm)) st
  | _ => with_surf (Surface [geo] [] None (mapView s) (msg s)) st
  end.

(** [totalKm = route.distance ? (route.distance / 1000.0) : 0;] *)
Definition totalKm_of (route : osrm_route) : R :=
  match distance route with
  | Some m => m / 1000
  | None => 0
  end.

Definition MSG_UNAVAILABLE : message :=
  Text "Route unavailable. Try a nearby suburb or major city.".

(** [doRoute] resumed with the answer of the routing service. *)
Definition route_done (r : fetched osrm_data) (st : page) : page :=
  match r with
  | Response true (Some data) =>
      match routes data with
      | Some (route :: _) => render (geometry route) (totalKm_of route) st
      | _ => with_msg MSG_UNAVAILABLE st
      end
  | _ => with_msg MSG_UNAVAILABLE st
  end.

(** [doRoute] once both places are resolved. *)
Definition route_begin (o d : option candidate) (st : page) : page :=
  match o, d with
  | Some o', Some d' => suspend (TRoute o' d') (RouteReq o' d') st
  | _, _ =>
      with_msg (Text "Could not find one or both places. Try being more specific.") st
  end.

(** [doRoute] from [const d = await geocodeFirst(destTxt, 'd')] on. *)
Definition dest_begin (o : option candidate) (destTxt : string) (st : page) : page :=
  match geocodeFirst_begin (geoCache st) destTxt D with
  | FirstIs d => route_begin o d st
  | FirstAwaits q => suspend (TGeoD o destTxt) (GeocodeReq q) st
  end.

(** [async function doRoute()], the click handler of [#btn-find]. *)
Definition doRoute (st0 : page) : page :=
  let st := with_msg (Text "Finding route...") st0 in
  let originTxt := Str.trim (originVal st) in
  let destTxt := Str.trim (destVal st) in
  if Str.falsy originTxt || Str.falsy destTxt
  then with_msg (Text "Please enter both origin and destination.") st
  else match geocodeFirst_begin (geoCache st) originTxt O with
       | FirstIs o => dest_begin o destTxt st
       | FirstAwaits q => suspend (TGeoO originTxt destTxt) (GeocodeReq q) st
       end.

(** The debounced input handler of field [w], when its timer fires. *)
Definition suggest (w : which) (st : page) : page :=
  let q := match w with O => originVal st | D => destVal st end in
  match nominatimSuggest_begin (geoCache st) q w with
  | Returns items => populateDatalist w items st
  | Awaits q' => suspend (TSuggest w q) (GeocodeReq q') st
  end.

(** The suspended call [t] is resumed with the answer [r]. *)
Definition resume (t : task) (r : net_result) (st : page) : page :=
  match t, r with
  | TSuggest w q, GeoResult g =>
      let '(items, c) := nominatimSuggest_resume (geoCache st) q w g in
      populateDatalist w items (with_cache c st)
  | TGeoO originTxt destTxt, GeoResult g =>
      let '(o, c) := geocodeFirst_resume (geoCache st) originTxt O g in
      dest_begin o destTxt (with_cache c st)
  | TGeoD o destTxt, GeoResult g =>
      let '(d, c) := geocodeFirst_resume (geoCache st) destTxt D g in
      route_begin o d (with_cache c st)
  | TRoute _ _, RouteResult g => route_done g st
  | _, _ => st
  end.

(** ** The page as a machine

    The handlers of the two buttons are installed once the map is ready;
    the machine starts from there. *)

Inductive event : Type :=
| EvInput (w : which) (s : string)     (* the user edits a field *)
| EvSuggest (w : which)                (* the debounce timer of a field fires *)
| EvFind                               (* click on Find Route *)
| EvClear                              (* click on Clear *)
| EvComplete (id : nat) (r : net_result). (* the request of call [id] completes *)

(** The requests complete in any order; an answer of the wrong service for
    a call is not delivered. *)
Definition deliverable (t : task) (r : net_result) : bool :=
  match t, r with
  | TRoute _ _, RouteResult _ => true
  | TRoute _ _, GeoResult _ => false
  | _, GeoResult _ => true
  | _, RouteResult _ => false
  end.

Definition step (st : page) (e : event) : page :=
  match e with
  | EvInput w s => with_value w s st
  | EvSuggest w => suggest w st
  | EvFind => doRoute st
  | EvClear => clear st
  | EvComplete id r =>
      match pending st !! id with
      | Some t => if deliverable t r then resume t r (resumed id st) else st
      | None => st
      end
  end.

Definition run (st : page) (evs : list event) : page := fold_left step evs st.

(** A freshly loaded page. *)
Definition init (points : list point) (heat : bool) : page :=
  Page points heat "" "" [] [] ∅ (Surface [] [] None None (Text "")) ∅ 0 [].

End V6.

(* ================================================================== *)
(** * The page of the v7 script *)
(* ================================================================== *)

Module V7.

Import Suggest.
Local Open Scope string_scope.

(** [CHARGER_GAP_KM = 300.0], printed into the script by the template. *)
Definition CHARGER_GAP_KM : R := 300.

(** A vertex of [coords], after [.map(c => [c[1], c[0]])]: latitude first. *)
Definition latlon : Type := (R * R)%type.

Definition swap_vertex (c : Geo.vertex) : latlon := (Geo.v_lat c, Geo.v_lon c).

(** [dist] of the gap loop, for [coords[lastIdx]] and [coords[i]]. *)
Definition seg_km (p1 p2 : latlon) : R :=
  let '(lat1, lon1) := p1 in
  let '(lat2, lon2) := p2 in
  111 * sqrt ((lat2 - lat1) ^ 2
              + ((lon2 - lon1) * cos ((lat1 + lat2) * PI / 360)) ^ 2).

(** The [for] loop of the gap detection from index [i] on: [last] is
    [coords[lastIdx]] (always the vertex before [coords[i]]), [rest] the
    vertices from [coords[i]] on. *)
Fixpoint gap_loop (gap : R) (last : latlon) (rest : list latlon) (maxGap : R) : R :=
  match rest with
  | [] => maxGap
  | p :: rest' =>
      let dist := seg_km last p in
      gap_loop gap p rest'
        (if bool_decide (dist > gap) then Rmax maxGap dist else maxGap)
  end.

(** [maxGap] after the loop ([let maxGap = 0, lastIdx = 0;]). *)
Definition maxGapKm (gap : R) (coords : list latlon) : R :=
  match coords with
  | [] => 0
  | c0 :: rest => gap_loop gap c0 rest 0
  end.

(** [if (maxGap > CHARGER_GAP_KM)]: the warning is appended. *)
Definition gap_warning (gap : R) (coords : list latlon) : bool :=
  bool_decide (maxGapKm gap coords > gap).

(** The content of [#routeMsg]: a fixed text, or the "Found route" text
    with [distance_km.toFixed(0)] ([None]: the distance is missing and the
    text shows NaN) and, when [warning] is [Some g], the appended warning
    with [g.toFixed(0)]. *)
Inductive message : Type :=
| Text (s : string)
| Found (distance_km : option R) (warning : option R).

(** A place as [geo(q)] returns it: [[lat, lon, display_name]]. *)
Record place : Type := Place { p_lat : R; p_lon : R; p_name : string }.

Inductive request : Type :=
| GeocodeReq (q : string)           (* search for [q] *)
| RouteReq (o d : place).           (* driving route from [o] to [d] *)

(** [findRoute] suspended in [geo(origin)], in [geo(destination)], or at
    the request of the route. *)
Inductive task : Type :=
| TGeoO (destination : string)
| TGeoD (o : place)
| TRoute.

(** [windowMap] tells whether [window.map] is bound to the Leaflet map when
    the script runs.  The script never assigns it, and the map that the
    Python side creates is held in a global named after its identifier
    ([map_...], the names that [findLeafletMap] of the v6 script looks
    for), so on the page as the script generates it [window.map] is
    [undefined]: see [init]. *)
Record page : Type := Page {
  originVal : string;                 (* value of #origin *)
  destVal : string;                   (* value of #destination *)
  msgBox : message;
  mapLines : list (list latlon);      (* the polylines added to window.map *)
  mapView : option (list latlon);     (* the line last fitted *)
  pending : gmap nat task;
  nextId : nat;
  requests : list request;
  windowMap : bool                    (* whether window.map is bound *)
}.

Definition with_msg (m : message) (st : page) : page :=
  Page (originVal st) (destVal st) m (mapLines st) (mapView st)
       (pending st) (nextId st) (requests st) (windowMap st).

Definition with_value (w : which) (s : string) (st : page) : page :=
  Page (match w with O => s | D => originVal st end)
       (match w with O => destVal st | D => s end)
       (msgBox st) (mapLines st) (mapView st)
       (pending st) (nextId st) (requests st) (windowMap st).

Definition suspend (t : task) (rq : request) (st : page) : page :=
  Page (originVal st) (destVal st) (msgBox st) (mapLines st) (mapView st)
       (<[nextId st := t]> (pending st)) (S (nextId st))
       (requests st ++ [rq])%list (windowMap st).

Definition resumed (id : nat) (st : page) : page :=
  Page (originVal st) (destVal st) (msgBox st) (mapLines st) (mapView st)
       (delete id (pending st)) (nextId st) (requests st) (windowMap st).

(** [catch (err) { msgBox.innerHTML = "Error finding route."; }] *)
Definition MSG_ERROR : message := Text "Error finding route.".

(** [async function findRoute()], the click handler of the button: it
    reads the two fields and calls [geo(origin)], which sends its request
    whatever the text is. *)
Definition findRoute (st0 : page) : page :=
  let origin := originVal st0 in
  let destination := destVal st0 in
  let st := with_msg (Text "Finding route...") st0 in
  suspend (TGeoO destination) (GeocodeReq (origin +:+ ", Australia")) st.

(** [geo(q)] from the answer on: [None] stands for an exception (the
    request or [r.json()] failed, or [j] is empty: "not found"). *)
Definition geo_resume (r : fetched (list nominatim_item)) : option place :=
  match r with
  | Response _ (Some (j0 :: _)) => Some (Place (d_lat j0) (d_lon j0) (display_name j0))
  | _ => None
  end.

(** [findRoute] from the answer of the routing service on.
    [L.polyline(coords, ...).addTo(window.map)] calls a method of
    [window.map], which raises when [window.map] is not bound: the call
    then ends in [catch] with nothing drawn.  When it is bound, the line is
    added to the map before the map is fitted to it, which raises for a
    line without vertices. *)
Definition route_done (r : fetched osrm_data) (st : page) : page :=
  match r with
  | Response _ (Some data) =>
      match routes data with
      | Some (route :: _) =>
          match geometry route with
          | Some cs =>
              let coords := map swap_vertex cs in
              let distance_km :=
                match distance route with Some m => Some (m / 1000) | None => None end in
              if windowMap st then
                let lines := (mapLines st ++ [coords])%list in
                match coords with
                | [] =>
                    Page (originVal st) (destVal st) MSG_ERROR lines (mapView st)
                         (pending st) (nextId st) (requests st) (windowMap st)
                | _ =>
                    let warning :=
                      if gap_warning CHARGER_GAP_KM coords
                      then Some (maxGapKm CHARGER_GAP_KM coords) else None in
                    Page (originVal st) (destVal st) (Found distance_km warning)
                         lines (Some coords)
                         (pending st) (nextId st) (requests st) (windowMap st)
                end
              else with_msg MSG_ERROR st
          | None => with_msg MSG_ERROR st
          end
      | _ => with_msg MSG_ERROR st
      end
  | _ => with_msg MSG_ERROR st
  end.

Definition resume (t : task) (r : net_result) (st : page) : page :=
  match t, r with
  | TGeoO destination, GeoResult g =>
      match geo_resume g with
      | Some o => suspend (TGeoD o) (GeocodeReq (destination +:+ ", Australia")) st
      | None => with_msg MSG_ERROR st
      end
  | TGeoD o, GeoResult g =>
      match geo_resume g with
      | Some d => suspend TRoute (RouteReq o d) st
      | None => with_msg MSG_ERROR st
      end
  | TRoute, RouteResult g => route_done g st
  | _, _ => st
  end.

Inductive event : Type :=
| EvInput (w : which) (s : string)
| EvFind
| EvComplete (id : nat) (r : net_result).

Definition deliverable (t : task) (r : net_result) : bool :=
  match t, r with
  | TRoute, RouteResult _ => true
  | TRoute, GeoResult _ => false
  | _, GeoResult _ => true
  | _, RouteResult _ => false
  end.

Definition step (st : page) (e : event) : page :=
  match e with
  | EvInput w s => with_value w s st
  | EvFind => findRoute st
  | EvComplete id r =>
      match pending st !! id with
      | Some t => if deliverable t r then resume t r (resumed id st) else st
      | None => st
      end
  end.

Definition run (st : page) (evs : list event) : page := fold_left step evs st.

(** A freshly loaded page, as the script generates it: the two fields
    hold the default addresses, nothing is drawn, and [window.map] is not
    bound. *)
Definition init : page :=
  Page "101 Collins Street, Melbourne, Victoria"
       "152 St Georges Terrace, Perth, Western Australia"
       (Text "") [] None ∅ 0 [] false.

End V7.

(* ================================================================== *)
(** * Timers of the v6 script *)
(* ================================================================== *)

(** [debounce(fn, ms)]: the function it returns clears the timer of the
    previous call and sets a new one, which calls [fn] with the arguments
    of this call [ms] milliseconds later.  Time is counted in
    milliseconds; a [Timeout] is the moment at which the event loop runs
    the timers that are due. *)
Module Debounce.

Local Open Scope nat_scope.

Section Debounce.

Variable A : Type.   (* the arguments of a call *)
Variable ms : nat.

(** The variable [t]: the timer that is set and has neither run nor been
    cleared, with its due time and the arguments it will pass. *)
Definition timer : Type := option (nat * A).

Inductive event : Type :=
| Call (now : nat) (args : A)     (* the debounced function is called *)
| Timeout (now : nat).            (* the event loop runs the due timers *)

(** One event: the timer left, and the arguments [fn] is called with, if
    it is called. *)
Definition step (t : timer) (e : event) : timer * option A :=
  match e with
  | Call now args => (Some (now + ms, args), None)
  | Timeout now =>
      match t with
      | Some (due, args) => if due <=? now then (None, Some args) else (t, None)
      | None => (None, None)
      end
  end.

(** A sequence of events: the timer left and the calls of [fn], in order. *)
Fixpoint run (t : timer) (evs : list event) : timer * list A :=
  match evs with
  | [] => (t, [])
  | e :: evs' =>
      let '(t1, fired) := step t e in
      let '(t2, rest) := run t1 evs' in
      (t2, match fired with Some a => a :: rest | None => rest end)
  end.

End Debounce.

Arguments Call {A} now args.
Arguments Timeout {A} now.
Arguments step {A} ms t e.
Arguments run {A} ms t evs.

End Debounce.

(** [whenMapReady(cb)]: every 250 ms the interval looks for the map; it
    stops when the map is found (and calls [cb]) or when it has failed
    more than 60 times (and shows "Map not ready. Please reload the
    page."). *)
Module MapReady.

Local Open Scope nat_scope.

Record poller : Type := Poller {
  tries : nat;        (* let tries *)
  running : bool;     (* the interval [iv] is set *)
  called : nat;       (* how often [cb] was called *)
  gaveUp : bool       (* the message "Map not ready..." was written *)
}.

(** [whenMapReady(cb)] has just set the interval. *)
Definition start : poller := Poller 0 true 0 false.

(** The interval callback, [found] telling whether [findLeafletMap()]
    returns a map; a cleared interval does not run. *)
Definition poll (p : poller) (found : bool) : poller :=
  if running p then
    if found then Poller (tries p) false (S (called p)) (gaveUp p)
    else if 60 <? S (tries p) then Poller (S (tries p)) false (called p) true
    else Poller (S (tries p)) true (called p) (gaveUp p)
  else p.

Definition polls (p : poller) (founds : list bool) : poller :=
  fold_left poll founds p.

End MapReady.

(* ================================================================== *)
(** * The Python side of the v6 script: from the records of Open Charge
      Map to the charger points *)
(* ================================================================== *)

(** Python strings are sequences of ASCII characters here, as the strings
    of the script are. *)
Module Py.

Local Open Scope string_scope.

Fixpoint map_string (f : ascii -> ascii) (s : string) : string :=
  match s with
  | EmptyString => EmptyString
  | String c s' => String (f c) (map_string f s')
  end.

Definition upper_char (c : ascii) : ascii :=
  let n := nat_of_ascii c in
  if (97 <=? n)%nat && (n <=? 122)%nat then ascii_of_nat (n - 32) else c.

(** [s.lower()] and [s.upper()] *)
Definition lower (s : string) : string := map_string Str.lower s.
Definition upper (s : string) : string := map_string upper_char s.

(** The characters that [str.strip()] removes. *)
Definition is_space (c : ascii) : bool :=
  let n := nat_of_ascii c in
  Ascii.is_space c || ((28 <=? n)%nat && (n <=? 31)%nat).

Fixpoint lstrip (s : string) : string :=
  match s with
  | EmptyString => EmptyString
  | String c s' => if is_space c then lstrip s' else s
  end.

Fixpoint rstrip (s : string) : string :=
  match s with
  | EmptyString => EmptyString
  | String c s' =>
      match rstrip s' with
      | EmptyString => if is_space c then EmptyString else String c EmptyString
      | r => String c r
      end
  end.

(** [s.strip()] *)
Definition strip (s : string) : string := rstrip (lstrip s).

(** [p in s] *)
Fixpoint contains (p s : string) : bool :=
  String.prefix p s ||
  match s with
  | EmptyString => false
  | String _ s' => contains p s'
  end.

(** [not s] for an optional text: [None] and the empty text are falsy. *)
Definition falsy (s : option string) : bool :=
  match s with
  | None | Some EmptyString => true
  | Some _ => false
  end.

(** [STATE_MAP] *)
Definition STATE_MAP : gmap string string :=
  list_to_map
    [("new south wales", "NSW"); ("nsw", "NSW");
     ("victoria", "VIC"); ("vic", "VIC");
     ("queensland", "QLD"); ("qld", "QLD");
     ("south australia", "SA"); ("sa", "SA");
     ("western australia", "WA"); ("wa", "WA");
     ("tasmania", "TAS"); ("tas", "TAS");
     ("northern territory", "NT"); ("nt", "NT");
     ("australian capital territory", "ACT"); ("act", "ACT")].

(** [def normalise_state(s)] *)
Definition normalise_state (s : option string) : string :=
  match s with
  | None | Some EmptyString => "UNK"
  | Some s' =>
      let key := lower (strip s') in
      match STATE_MAP !! key with
      | Some abbr => abbr
      | None => if (String.length s' <=? 4)%nat then upper s' else "UNK"
      end
  end.

(** [def classify_usage_simple(usage)] *)
Definition classify_usage_simple (usage : option string) : string :=
  match usage with
  | None | Some EmptyString => "unknown"
  | Some usage' =>
      let u := lower usage' in
      if contains "public" u then "public"
      else if contains "private" u || contains "restricted" u then "private"
      else "unknown"
  end.

(** [def classify_status_simple(status)] *)
Definition classify_status_simple (status : option string) : string :=
  match status with
  | None | Some EmptyString => "unknown"
  | Some status' =>
      let s := lower status' in
      if contains "operational" s then "operational"
      else if contains "temporarily" s || contains "partial" s
              || contains "limited" s then "partial"
      else if contains "faulted" s || contains "down" s
              || contains "not operational" s then "down"
      else if contains "planned" s then "unknown"
      else "unknown"
  end.

(** [COL_STATUS] *)
Definition COL_STATUS : gmap string string :=
  list_to_map
    [("operational", "#16a34a"); ("partial", "#f59e0b");
     ("down", "#ef4444"); ("unknown", "#6b7280")].

(** [def status_color(s_simple)] *)
Definition status_color (s_simple : option string) : string :=
  let k := if falsy s_simple then "unknown" else default "" s_simple in
  default (COL_STATUS !!! "unknown") (COL_STATUS !! k).

(** [FAST_KW = 50.0] *)
Definition FAST_KW : R := 50.

(** A value of a JSON object under a key, as the conversions of
    [normalise_ocm] see it: the key is absent, its value is [null], the
    value converts ([float], [int], [pd.to_numeric]) to [a], or it is a
    value on which the conversion fails. *)
Inductive jfield (A : Type) : Type :=
| Absent
| Null
| Val (a : A)
| Junk.
Arguments Absent {A}.
Arguments Null {A}.
Arguments Val {A} a.
Arguments Junk {A}.

(** An element of [Connections] that is not falsy; [TypeTitle] is the
    [Title] of its [ConnectionType], if it has one. *)
Record connection : Type := Connection {
  PowerKW : jfield R;
  ConnectionPowerKW : jfield R;
  Quantity : jfield Z;
  TypeTitle : option string
}.

(** A record of Open Charge Map, with the titles of its sub-objects
    ([None] where the sub-object or the key is missing or null).  A falsy
    element of [Connections] ([null] or an empty object) is [None]. *)
Record poi : Type := Poi {
  ID : option Z;
  Title : option string;
  Town : option string;
  StateOrProvince : option string;
  Latitude : jfield R;
  Longitude : jfield R;
  UsageTitle : option string;
  StatusTitle : option string;
  OperatorTitle : option string;
  Connections : list (option connection)
}.

(** [pw = c.get("PowerKW", c.get("ConnectionPowerKW"))]: the second key is
    looked at only when the first is absent. *)
Definition power_of (c : connection) : jfield R :=
  match PowerKW c with
  | Absent => ConnectionPowerKW c
  | f => f
  end.

(** The body of [for c in conns]: the accumulator is [max_power],
    [total_q] and [conn_titles]. *)
Definition conn_step (acc : option R * Z * gset string) (c : option connection)
  : option R * Z * gset string :=
  let '(max_power, total_q, conn_titles) := acc in
  match c with
  | None => acc
  | Some c' =>
      let max_power' :=
        match power_of c' with
        | Val pwf =>
            match max_power with
            | None => Some pwf
            | Some m => if bool_decide (pwf > m) then Some pwf else Some m
            end
        | _ => max_power
        end in
      let total_q' :=
        (total_q + match Quantity c' with Val q => q | _ => 1 end)%Z in
      let conn_titles' :=
        match TypeTitle c' with
        | Some (String a t) => {[String a t]} ∪ conn_titles
        | _ => conn_titles
        end in
      (max_power', total_q', conn_titles')
  end.

Definition conn_loop (conns : list (option connection)) : option R * Z * gset string :=
  fold_left conn_step conns (None, 0%Z, ∅).

(** A row of the table that [normalise_ocm] returns ([lat], [lon],
    [power_kw] and [quantity] after [pd.to_numeric], a missing number
    being [None]). *)
Record row : Type := Row {
  r_id : option Z;
  r_title : option string;
  r_town : option string;
  r_state : option string;
  r_usage_type : option string;
  r_status : option string;
  r_operator : option string;
  r_connection_types : string;
  r_power_kw : option R;
  r_quantity : option Z;
  r_lat : option R;
  r_lon : option R
}.

Definition to_numeric {A} (f : jfield A) : option A :=
  match f with Val a => Some a | _ => None end.

(** [", ".join(sorted(conn_titles)) if conn_titles else ""] *)
Definition join_titles (conn_titles : gset string) : string :=
  String.concat ", " (merge_sort String.le (elements conn_titles)).

(** The row appended for the record [p]. *)
Definition row_of (p : poi) : row :=
  let '(max_power, total_q, conn_titles) := conn_loop (Connections p) in
  Row (ID p) (Title p) (Town p) (StateOrProvince p)
      (UsageTitle p) (StatusTitle p) (OperatorTitle p)
      (join_titles conn_titles)
      max_power
      (if bool_decide (total_q > 0)%Z then Some total_q else None)
      (to_numeric (Latitude p)) (to_numeric (Longitude p)).

(** [df.dropna(subset=["lat","lon"])] keeps this row. *)
Definition has_coords (r : row) : bool :=
  match r_lat r, r_lon r with
  | Some _, Some _ => true
  | _, _ => false
  end.

(** [def normalise_ocm(pois)] *)
Definition normalise_ocm (pois : list poi) : list row :=
  List.filter has_coords (map row_of pois).

(** A row with the columns that [enrich_dataframe] adds. *)
Record enriched : Type := Enriched {
  base : row;
  usage_simple : string;
  status_simple : string;
  is_fast : bool;
  state_abbrev : string
}.

(** [def enrich_dataframe(df)], row by row. *)
Definition enrich (r : row) : enriched :=
  Enriched r
    (classify_usage_simple (r_usage_type r))
    (classify_status_simple (r_status r))
    (bool_decide (default 0 (r_power_kw r) >= FAST_KW))
    (normalise_state (r_state r)).

Definition enrich_dataframe (df : list row) : list enriched := map enrich df.

(** The entry of [EV_POINTS] that [build_map] writes for a row of the
    table (rows without coordinates have been dropped). *)
Definition js_point (e : enriched) : Geo.point :=
  Geo.Point (default 0 (r_lat (base e))) (default 0 (r_lon (base e))) (is_fast e).

(** [int(status_counts.get(k, 0))], where [status_counts] is
    [df["status_simple"].value_counts(dropna=False).to_dict()]: the number
    of rows of the class [k]. *)
Definition status_count (k : string) (df : list enriched) : Z :=
  Z.of_nat (length (List.filter (fun e => String.eqb (status_simple e) k) df)).

Record tally : Type := Tally {
  tot_sites : Z;
  n_oper : Z;
  n_partial : Z;
  n_down : Z;
  n_unknown : Z
}.

(** The head of [build_map]. *)
Definition status_tally (df : list enriched) : tally :=
  Tally (Z.of_nat (length df))
        (status_count "operational" df) (status_count "partial" df)
        (status_count "down" df) (status_count "unknown" df).

(** [col = status_color(r.get("status_simple"))], row by row. *)
Definition marker_colors (df : list enriched) : list string :=
  map (fun e => status_color (Some (status_simple e))) df.

End Py.

(* ================================================================== *)
(** * The Python side of the v7 script: marker colours and the tally *)
(* ================================================================== *)

(** [build_map] of the v7 script colours the marker of every row by its
    [status] and counts the rows by status for the snapshot box.  The
    statuses are texts ([normalise_ocm] has replaced the missing ones by
    [Unknown]); on ASCII text the search of [str.contains] with
    [case=False] for a word of lower-case letters is the search for the
    word in the lower-cased text. *)
Module PyV7.

Local Open Scope string_scope.

(** The colour chosen in [for _, row in df.iterrows()]. *)
Definition marker_color (status : string) : string :=
  if Py.contains "operational" (Py.lower status) then "green"
  else if Py.contains "partial" (Py.lower status) then "orange"
  else if Py.contains "down" (Py.lower status) then "red"
  else "gray".

(** [df["status"].str.contains(pat, case=False)] on one row. *)
Definition str_contains (pat status : string) : bool :=
  Py.contains pat (Py.lower status).

(** [len(df[df["status"].str.contains(pat, case=False)])] *)
Definition count (pat : string) (statuses : list string) : Z :=
  Z.of_nat (length (List.filter (str_contains pat) statuses)).

Record tally : Type := Tally {
  total : Z;
  operational : Z;
  partial : Z;
  down : Z;
  unknown : Z
}.

(** The block [# Status counts] of [build_map]. *)
Definition status_counts (statuses : list string) : tally :=
  let total := Z.of_nat (length statuses) in
  let operational := count "operational" statuses in
  let partial := count "partial" statuses in
  let down := count "down" statuses in
  let unknown := (total - (operational + partial + down))%Z in
  Tally total operational partial down unknown.

End PyV7.

(* ================================================================== *)
(** * Notions and inputs used in the statements *)
(* ================================================================== *)

Import Geo Suggest.

(** [m] is the least haversine distance from [(lat, lon)] to a vertex of
    [coords]: it is attained at a vertex and no vertex is closer. *)
Definition is_min_dist (lat lon : R) (coords : list vertex) (m : R) : Prop :=
  (exists v, In v coords /\ haversineKm lat lon (v_lat v) (v_lon v) = m) /\
  (forall v, In v coords -> m <= haversineKm lat lon (v_lat v) (v_lon v)).

(** The polyline of the example: three vertices on the meridian 0, at the
    latitudes 0, 1 and 2; the point stands one degree north of its end. *)
Definition meridian_line : list vertex := [Vertex 0 0; Vertex 0 1; Vertex 0 2].
Definition north_point : point := Point 3 0 true.
Definition one_degree_km : R := EARTH_R * (1 * PI / 180).

(** The distances of the consecutive pairs of vertices, in order. *)
Fixpoint seg_dists_from (last : V7.latlon) (rest : list V7.latlon) : list R :=
  match rest with
  | [] => []
  | p :: rest' => V7.seg_km last p :: seg_dists_from p rest'
  end.

Definition seg_dists (coords : list V7.latlon) : list R :=
  match coords with
  | [] => []
  | c0 :: rest => seg_dists_from c0 rest
  end.

(** [M] is the greatest element of [l]. *)
Definition is_max_of (l : list R) (M : R) : Prop :=
  In M l /\ forall x, In x l -> x <= M.

(** The update of [maxGap] by one distance. *)
Definition gap_update (gap maxGap dist : R) : R :=
  if bool_decide (dist > gap) then Rmax maxGap dist else maxGap.

(** The recursive reading of the deduplication loop: an item is kept when
    its label was not seen before. *)
Fixpoint keep_first (seen : gset string) (items : list candidate) : list candidate :=
  match items with
  | [] => []
  | it :: rest =>
      if bool_decide (label it ∈ seen) then keep_first seen rest
      else it :: keep_first ({[label it]} ∪ seen) rest
  end.

(** The first item of [items] with the label [l]. *)
Definition first_labelled (l : string) (items : list candidate) : option candidate :=
  List.find (fun it => bool_decide (label it = l)) items.

(** An answer of the geocoder whose display names are [A, B, A, C]. *)
Definition answer_ABAC : list nominatim_item :=
  [Item "A" 1 2; Item "B" 3 4; Item "A" 5 6; Item "C" 7 8].

(** A page with a route shown and the query Perth of the destination
    field in the cache. *)
Definition page_with_cached_perth : V6.page :=
  V6.Page [] true "Melbourne" "Perth" [] ["Perth"%string]
          (<[cache_key D "Perth" := [Candidate "Perth" (-32) 116]]> ∅)
          (V6.Surface [Some [Vertex 145 (-38); Vertex 116 (-32)]] [] None None
                      (V6.Found 3400))
          ∅ 3 [].

Definition melbourne : candidate := Candidate "Melbourne" (-38) 145.
Definition perth : candidate := Candidate "Perth" (-32) 116.
Definition charger_perth : point := Point (-32) 116 true.

(** The geocoder finds the place [c]. *)
Definition geo_ok (c : candidate) : net_result :=
  GeoResult (Response true (Some [Item (label c) (lat c) (lon c)])).


(** Session 1 asks for Melbourne to Perth and is left waiting for its
    route (call 2); session 2 then asks for Melbourne to Sydney and is
    left waiting for its route (call 4). *)
Definition session1 : list V6.event :=
  [V6.EvInput O "Melbourne"; V6.EvInput D "Perth"; V6.EvFind;
   V6.EvComplete 0 (geo_ok melbourne); V6.EvComplete 1 (geo_ok perth)].


Definition page0 : V6.page := V6.init [charger_perth] true.

(** A v7 page whose call 2 waits for its route. *)
Definition v7_waiting : V7.page :=
  V7.run V7.init
    [V7.EvFind; V7.EvComplete 0 (geo_ok melbourne); V7.EvComplete 1 (geo_ok perth)].

(** The three conditions that the specification gives for RouteUnavailable,
    read on an answer of the routing service: the status is not
    successful, there is no route, or the body does not have the expected
    shape (it does not parse, [routes] is absent, or the first route has
    no geometry).  A rejected request has no answer and meets none of
    them. *)
Definition claimed_unavailable (r : fetched osrm_data) : Prop :=
  match r with
  | NetworkError => False
  | Response ok body =>
      ok = false \/
      match body with
      | None => True
      | Some data =>
          match routes data with
          | None | Some [] => True
          | Some (route :: _) => geometry route = None
          end
      end
  end.

(** The failures that the [try] block of v6 [doRoute] turns into its
    message: the request is rejected, the status is not successful, the
    body does not parse, or [routes] is absent or empty. *)
Definition v6_route_failed (r : fetched osrm_data) : Prop :=
  r = NetworkError \/ (exists body, r = Response false body) \/
  r = Response true None \/ r = Response true (Some (Osrm None)) \/
  r = Response true (Some (Osrm (Some []))).

(** The failures that end v7 [findRoute] in its [catch] before anything is
    drawn: the status is not looked at. *)
Definition v7_route_failed (r : fetched osrm_data) : Prop :=
  r = NetworkError \/ (exists ok, r = Response ok None) \/
  (exists ok, r = Response ok (Some (Osrm None))) \/
  (exists ok, r = Response ok (Some (Osrm (Some [])))) \/
  (exists ok dist rs, r = Response ok (Some (Osrm (Some (Route None dist :: rs))))).

(** A v6 page whose call 2 waits for the route from Melbourne to Perth. *)
Definition v6_waiting : V6.page := V6.run page0 session1.

(** The key under which a suspended call stores the answer it waits for
    (a call that waits for a route stores nothing). *)
Definition stores_under (t : V6.task) : option string :=
  match t with
  | V6.TSuggest w q => Some (cache_key w q)
  | V6.TGeoO originTxt _ => Some (cache_key O originTxt)
  | V6.TGeoD _ destTxt => Some (cache_key D destTxt)
  | V6.TRoute _ _ => None
  end.

(** No suspended call of the page waits for an answer that it would store
    under the key [k]. *)
Definition no_lookup_in_flight (k : string) (st : V6.page) : Prop :=
  forall id t, V6.pending st !! id = Some t -> stores_under t <> Some k.

(** Two answers of the geocoder to one query. *)
Definition answer_west : net_result :=
  GeoResult (Response true (Some [Item "Perth WA" 1 2])).

Definition answer_south : net_result :=
  GeoResult (Response true (Some [Item "Perth TAS" 3 4])).

(** The origin field holds "Perth" when its debounce timer fires (call 0);
    the user adds a letter and removes it, and the timer fires again
    before call 0 is answered (call 1); then call 0 is answered. *)
Definition two_lookups : list V6.event :=
  [V6.EvInput O "Perth"; V6.EvSuggest O;
   V6.EvInput O "Perths"; V6.EvInput O "Perth"; V6.EvSuggest O;
   V6.EvComplete 0 answer_west].

(** ** Notions of the further properties *)

(** The vertices of a drawn geometry (none when the geometry is absent). *)
Definition coords_of (geo : option (list vertex)) : list vertex :=
  match geo with Some cs => cs | None => [] end.

(** The chargers of the page within [PROX_KM] of the vertices [coords]. *)
Definition near_chargers (st : V6.page) (coords : list vertex) : list point :=
  List.filter (is_near V6.PROX_KM coords) (V6.EV_POINTS st).

(** The overlays belong together: nothing is drawn, or one line is drawn
    and the markers are those of the chargers near it, the heat layer
    (when there is one to draw and the plugin exists) lying on the same
    positions. *)
Definition overlay_ok (st : V6.page) : Prop :=
  (V6.routeLayer (V6.surf st) = [] /\ V6.nearLayer (V6.surf st) = [] /\
   V6.nearHeat (V6.surf st) = None) \/
  exists geo,
    V6.routeLayer (V6.surf st) = [geo] /\
    V6.nearLayer (V6.surf st) = map marker_of (near_chargers st (coords_of geo)) /\
    V6.nearHeat (V6.surf st)
    = match map (fun pt => (pt_lat pt, pt_lon pt)) (near_chargers st (coords_of geo)) with
      | [] => None
      | l => if V6.heatPlugin st then Some l else None
      end.

(** [st'] shows the same overlays over the same chargers as [st]. *)
Definition same_overlay (st st' : V6.page) : Prop :=
  V6.EV_POINTS st' = V6.EV_POINTS st /\ V6.heatPlugin st' = V6.heatPlugin st /\
  V6.routeLayer (V6.surf st') = V6.routeLayer (V6.surf st) /\
  V6.nearLayer (V6.surf st') = V6.nearLayer (V6.surf st) /\
  V6.nearHeat (V6.surf st') = V6.nearHeat (V6.surf st).

Definition MSG_NOT_FOUND : V6.message :=
  V6.Text "Could not find one or both places. Try being more specific.".

(** The options of the suggestion list of field [w]. *)
Definition list_of (w : which) (st : V6.page) : list string :=
  match w with O => V6.originList st | D => V6.destList st end.

Definition other (w : which) : which := match w with O => D | D => O end.

(** The chain of tests of [classify_status_simple] on the lowered text. *)
Definition status_of_lower (s : string) : string :=
  (if Py.contains "operational" s then "operational"
   else if Py.contains "temporarily" s || Py.contains "partial" s
           || Py.contains "limited" s then "partial"
   else if Py.contains "faulted" s || Py.contains "down" s
           || Py.contains "not operational" s then "down"
   else if Py.contains "planned" s then "unknown"
   else "unknown")%string.

(** The chain of tests of [classify_usage_simple] on the lowered text. *)
Definition usage_of_lower (u : string) : string :=
  (if Py.contains "public" u then "public"
   else if Py.contains "private" u || Py.contains "restricted" u then "private"
   else "unknown")%string.

(** No character of [s] is a lower-case letter. *)
Fixpoint no_lower (s : string) : bool :=
  match s with
  | EmptyString => true
  | String c s' =>
      negb ((97 <=? nat_of_ascii c)%nat && (nat_of_ascii c <=? 122)%nat)
      && no_lower s'
  end.

(** The power of an element of [Connections] that the loop of
    [normalise_ocm] can use, and the ports it adds to [total_q]. *)
Definition usable_power (c : option Py.connection) : option R :=
  c ≫= fun c' => Py.to_numeric (Py.power_of c').

Definition usable_powers (conns : list (option Py.connection)) : list R :=
  omap usable_power conns.

Definition ports (c : option Py.connection) : Z :=
  match c with
  | None => 0
  | Some c' => match Py.Quantity c' with Py.Val q => q | _ => 1 end
  end.

Definition total_ports (conns : list (option Py.connection)) : Z :=
  foldr Z.add 0%Z (map ports conns).

Definition has_title (conns : list (option Py.connection)) (t : string) : Prop :=
  t <> ""%string /\ exists c, In (Some c) conns /\ Py.TypeTitle c = Some t.

Definition is_top_power (conns : list (option Py.connection)) (mp : option R)
  : Prop :=
  match mp with
  | None => usable_powers conns = []
  | Some m => In m (usable_powers conns) /\
              Forall (fun x => x <= m) (usable_powers conns)
  end.

(** A record with coordinates and one connector of 150 kW. *)
Definition site_150kw : Py.poi :=
  Py.Poi (Some 1%Z) (Some "Depot"%string) None (Some "Victoria"%string)
         (Py.Val (-38)) (Py.Val 145) None (Some "Operational"%string) None
         [Some (Py.Connection (Py.Val 150) Py.Absent (Py.Val 2%Z)
                              (Some "CCS"%string))].

(** The number of markers of a colour on the map. *)
Definition markers (color : string) (statuses : list string) : Z :=
  Z.of_nat (length (List.filter
    (fun s => String.eqb (PyV7.marker_color s) color) statuses)).

(** No character of [p] is, case ignored, the character [sep]. *)
Fixpoint avoids (sep : ascii) (p : string) : bool :=
  match p with
  | EmptyString => true
  | String a p' => negb (Ascii.eqb (Str.lower a) (Str.lower sep)) && avoids sep p'
  end.

(** The number of markers of a colour among those drawn for the table. *)
Definition drawn (color : string) (df : list Py.enriched) : Z :=
  Z.of_nat (length (List.filter (String.eqb color) (Py.marker_colors df))).

(* ================================================================== *)
(** * Theorems *)
(* ================================================================== *)

(** ** The proximity loop *)

Lemma le_x_true dkm thr : le_x dkm thr = true <->
  match dkm with Fin d => d <= thr | Infinity => False end.
Proof.
  destruct dkm; simpl; [apply bool_decide_eq_true | split; [discriminate | tauto]].
Qed.

(** The loop of [minDistKm], started from a finite [best], ends on a finite
    value that is the least of [best] and the distances to the vertices. *)
Lemma minDist_fold_fin lat lon coords : forall b,
  exists m, fold_left (minDist_step lat lon) coords (Fin b) = Fin m /\
    m <= b /\
    (forall v, In v coords -> m <= haversineKm lat lon (v_lat v) (v_lon v)) /\
    (m = b \/ exists v, In v coords /\ haversineKm lat lon (v_lat v) (v_lon v) = m).
Proof.
  induction coords as [|p coords IH]; intros b; simpl.
  - exists b. repeat split; [lra | tauto | now left].
  - unfold minDist_step at 2. simpl.
    set (d := haversineKm lat lon (v_lat p) (v_lon p)).
    destruct (bool_decide (d < b)) eqn:Hlt.
    + apply bool_decide_eq_true in Hlt.
      destruct (IH d) as (m & Hm & Hle & Hlow & Hatt).
      exists m. repeat split; [exact Hm | lra | |].
      * intros v [<- | Hv]; [exact Hle | now apply Hlow].
      * right. destruct Hatt as [-> | (v & Hv & Hd)];
          [exists p; split; [now left | reflexivity]
          | exists v; split; [now right | exact Hd]].
    + apply bool_decide_eq_false in Hlt.
      destruct (IH b) as (m & Hm & Hle & Hlow & Hatt).
      exists m. repeat split; [exact Hm | exact Hle | |].
      * intros v [<- | Hv]; [fold d; lra | now apply Hlow].
      * destruct Hatt as [-> | (v & Hv & Hd)];
          [now left | right; exists v; split; [now right | exact Hd]].
Qed.

(** [minDistKm] is [Infinity] on an empty polyline and the least distance
    to a vertex otherwise. *)
Lemma minDistKm_spec lat lon coords :
  match minDistKm lat lon coords with
  | Infinity => coords = []
  | Fin m => is_min_dist lat lon coords m
  end.
Proof.
  unfold minDistKm. destruct coords as [|p coords]; simpl; [reflexivity|].
  change (minDist_step lat lon Infinity p)
    with (Fin (haversineKm lat lon (v_lat p) (v_lon p))).
  set (d := haversineKm lat lon (v_lat p) (v_lon p)).
  destruct (minDist_fold_fin lat lon coords d) as (m & -> & Hle & Hlow & Hatt).
  split.
  - destruct Hatt as [-> | (v & Hv & Hd)];
      [exists p; split; [now left | reflexivity]
      | exists v; split; [now right | exact Hd]].
  - intros v [<- | Hv]; [exact Hle | now apply Hlow].
Qed.

Lemma is_min_dist_unique lat lon coords m1 m2 :
  is_min_dist lat lon coords m1 -> is_min_dist lat lon coords m2 -> m1 = m2.
Proof.
  intros [(v1 & Hv1 & E1) L1] [(v2 & Hv2 & E2) L2].
  specialize (L1 v2 Hv2). specialize (L2 v1 Hv1). lra.
Qed.

(** A point is selected exactly when its least distance to the vertices
    exists and is at most the threshold. *)
Lemma is_near_iff thr coords pt :
  is_near thr coords pt = true <->
  exists m, is_min_dist (pt_lat pt) (pt_lon pt) coords m /\ m <= thr.
Proof.
  unfold is_near. rewrite le_x_true.
  pose proof (minDistKm_spec (pt_lat pt) (pt_lon pt) coords) as Hs.
  destruct (minDistKm (pt_lat pt) (pt_lon pt) coords) as [m|].
  - split; [intros H; exists m; auto |].
    intros (m' & Hm' & Hle). now rewrite (is_min_dist_unique _ _ _ _ _ Hs Hm').
  - split; [tauto |]. subst coords. intros (m & [(v & [] & _) _] & _).
Qed.

(** The [forEach] loop appends, in the order of the points, the position
    and the marker of every selected point. *)
Lemma near_fold thr coords points : forall acc,
  fold_left (near_step thr coords) points acc =
  (fst acc ++ map (fun pt => (pt_lat pt, pt_lon pt)) (List.filter (is_near thr coords) points),
   snd acc ++ map marker_of (List.filter (is_near thr coords) points)).
Proof.
  induction points as [|pt points IH]; intros [ps ms]; simpl.
  - now rewrite !app_nil_r.
  - rewrite IH. unfold near_step, is_near. simpl.
    destruct (le_x (minDistKm (pt_lat pt) (pt_lon pt) coords) thr); simpl;
      now rewrite <- ?List.app_assoc.
Qed.

(** C3. The proximity loop of [doRoute] selects a charger point exactly when
    its least haversine distance to the vertices of the polyline is at most
    the threshold: a point at exactly the threshold is selected, a point
    farther by any positive amount is not (and no point is selected on a
    polyline without vertices); the selected positions and markers come
    out in the order of the input points. *)
Theorem C3_proximity_selects_within_threshold
    (thr : R) (points : list point) (coords : list vertex) :
  near_loop thr points coords =
    (map (fun pt => (pt_lat pt, pt_lon pt)) (List.filter (is_near thr coords) points),
     map marker_of (List.filter (is_near thr coords) points))
  /\ (forall pt, is_near thr coords pt = true <->
        exists m, is_min_dist (pt_lat pt) (pt_lon pt) coords m /\ m <= thr)
  /\ (forall pt m, is_min_dist (pt_lat pt) (pt_lon pt) coords m ->
        (m = thr -> is_near thr coords pt = true) /\
        (forall eps, 0 < eps -> m = thr + eps -> is_near thr coords pt = false)).
Proof.
  split; [| split].
  - unfold near_loop. now rewrite near_fold.
  - intros pt. apply is_near_iff.
  - intros pt m Hm. split.
    + intros ->. apply is_near_iff. exists thr. split; [assumption | lra].
    + intros eps Heps ->. apply not_true_is_false. intros Hn.
      apply is_near_iff in Hn. destruct Hn as (m' & Hm' & Hle).
      pose proof (is_min_dist_unique _ _ _ _ _ Hm Hm'). lra.
Qed.

(** ** The haversine distance *)

Lemma PI_lower : 3.1415 < PI.
Proof.
  pose proof (PI_2_3_7_ineq 2) as [H _].
  unfold PI_2_3_7_tg, tg_alt, Ratan_seq in H. simpl in H. lra.
Qed.

Lemma PI_upper : PI < 3.1417.
Proof.
  pose proof (PI_2_3_7_ineq 2) as [_ H].
  unfold PI_2_3_7_tg, tg_alt, Ratan_seq in H. simpl in H. lra.
Qed.

Lemma sin_taylor t : 0 <= t <= 4 ->
  t - t ^ 3 / 6 <= sin t <= t - t ^ 3 / 6 + t ^ 5 / 120.
Proof.
  intros [H0 H4]. pose proof (pre_sin_bound t 0 H0 H4) as [L U].
  unfold sin_approx, sin_term in L, U. simpl in L, U. lra.
Qed.

Lemma cos_taylor t : -2 <= t <= 2 ->
  1 - t ^ 2 / 2 + t ^ 4 / 24 - t ^ 6 / 720 <= cos t <= 1 - t ^ 2 / 2 + t ^ 4 / 24.
Proof.
  intros [H0 H4]. pose proof (pre_cos_bound t 1 H0 H4) as [L _].
  pose proof (pre_cos_bound t 0 H0 H4) as [_ U].
  unfold cos_approx, cos_term in L, U. simpl in L, U. lra.
Qed.

Lemma atan2_pos y x : 0 < x -> atan2 y x = atan (y / x).
Proof.
  intros H. unfold atan2. destruct (Rlt_dec 0 x); [reflexivity | contradiction].
Qed.

(** Sine and cosine on an interval with known end points. *)
Lemma sin_between lo hi t : 0 <= lo -> lo <= t -> t <= hi -> hi <= 3 / 2 ->
  lo - lo ^ 3 / 6 <= sin t <= hi - hi ^ 3 / 6 + hi ^ 5 / 120.
Proof.
  intros H0 Hl Hh H1. pose proof PI_lower.
  assert (sin lo <= sin t) by (apply sin_incr_1; lra).
  assert (sin t <= sin hi) by (apply sin_incr_1; lra).
  pose proof (sin_taylor lo ltac:(lra)). pose proof (sin_taylor hi ltac:(lra)). lra.
Qed.

Lemma cos_between lo hi t : 0 <= lo -> lo <= t -> t <= hi -> hi <= 2 ->
  1 - hi ^ 2 / 2 + hi ^ 4 / 24 - hi ^ 6 / 720 <= cos t
  <= 1 - lo ^ 2 / 2 + lo ^ 4 / 24.
Proof.
  intros H0 Hl Hh H1. pose proof PI_lower.
  assert (cos hi <= cos t) by (apply cos_decr_1; lra).
  assert (cos t <= cos lo) by (apply cos_decr_1; lra).
  pose proof (cos_taylor lo ltac:(lra)). pose proof (cos_taylor hi ltac:(lra)). lra.
Qed.

Lemma atan_le x y : x <= y -> atan x <= atan y.
Proof. intros [H | ->]; [left; now apply atan_increasing | lra]. Qed.

(** [atan t] lies between two angles whose tangents enclose [t]. *)
Lemma atan_between lo hi t : 0 < lo -> lo <= hi -> hi <= 1 -> 0 <= t ->
  (lo - lo ^ 3 / 6 + lo ^ 5 / 120)
    <= t * (1 - lo ^ 2 / 2 + lo ^ 4 / 24 - lo ^ 6 / 720) ->
  t * (1 - hi ^ 2 / 2 + hi ^ 4 / 24) <= hi - hi ^ 3 / 6 ->
  lo <= atan t <= hi.
Proof.
  intros H0 Hlh H1 Ht Hlo Hhi. pose proof PI_lower.
  pose proof (sin_taylor lo ltac:(lra)) as [_ Sl].
  pose proof (cos_taylor lo ltac:(lra)) as [Cl _].
  pose proof (sin_taylor hi ltac:(lra)) as [Sh _].
  pose proof (cos_taylor hi ltac:(lra)) as [_ Ch].
  assert (0 < cos lo) by (apply cos_gt_0; lra).
  assert (0 < cos hi) by (apply cos_gt_0; lra).
  split.
  - apply Rle_trans with (atan (tan lo)); [rewrite atan_tan; lra |].
    apply atan_le. unfold tan.
    apply Rmult_le_reg_r with (cos lo); [assumption|].
    unfold Rdiv. rewrite Rmult_assoc, Rinv_l, Rmult_1_r by lra. nra.
  - apply Rle_trans with (atan (tan hi)); [| rewrite atan_tan; lra].
    apply atan_le. unfold tan.
    apply Rmult_le_reg_r with (cos hi); [assumption|].
    unfold Rdiv. rewrite Rmult_assoc, Rinv_l, Rmult_1_r by lra. nra.
Qed.

Lemma sqrt_between lo hi a : 0 <= lo -> 0 <= hi -> lo * lo <= a -> a <= hi * hi ->
  lo <= sqrt a <= hi.
Proof.
  intros H0 H1 Hl Hh. split.
  - rewrite <- (sqrt_square lo) by assumption. now apply sqrt_le_1_alt.
  - rewrite <- (sqrt_square hi) by assumption. now apply sqrt_le_1_alt.
Qed.

Lemma hav_a_same lat lon : hav_a lat lon lat lon = 0.
Proof.
  unfold hav_a.
  replace ((lat - lat) * PI / 180 / 2) with 0 by lra.
  replace ((lon - lon) * PI / 180 / 2) with 0 by lra.
  rewrite sin_0. ring.
Qed.

Lemma haversineKm_same lat lon : haversineKm lat lon lat lon = 0.
Proof.
  unfold haversineKm. rewrite hav_a_same, Rminus_0_r, sqrt_0, sqrt_1.
  rewrite atan2_pos by lra. unfold Rdiv. rewrite Rmult_0_l, atan_0. ring.
Qed.

Lemma sin_sq_half x : sin (x / 2) ^ 2 = (1 - cos x) / 2.
Proof.
  replace x with (2 * (x / 2)) at 2 by lra. rewrite cos_2a_sin.
  unfold Rsqr. lra.
Qed.

(** For latitudes between the poles the haversine term lies in [[0, 1]],
    so both square roots of [haversineKm] are taken of non-negative
    numbers. *)
Lemma hav_a_range lat1 lon1 lat2 lon2 :
  -90 <= lat1 <= 90 -> -90 <= lat2 <= 90 ->
  0 <= hav_a lat1 lon1 lat2 lon2 <= 1.
Proof.
  intros H1 H2. unfold hav_a. pose proof PI_RGT_0 as Hpi.
  set (p1 := lat1 * PI / 180). set (p2 := lat2 * PI / 180).
  assert (0 <= cos p1) as C1 by (apply cos_ge_0; unfold p1; nra).
  assert (0 <= cos p2) as C2 by (apply cos_ge_0; unfold p2; nra).
  replace ((lat2 - lat1) * PI / 180) with (p2 - p1) by (unfold p1, p2; lra).
  set (s := sin ((lon2 - lon1) * PI / 180 / 2)).
  assert (0 <= s ^ 2 <= 1) as Hs.
  { pose proof (SIN_bound ((lon2 - lon1) * PI / 180 / 2)) as Hb. fold s in Hb. nra. }
  rewrite sin_sq_half, cos_minus.
  pose proof (COS_bound (p2 + p1)) as Hc. rewrite cos_plus in Hc.
  pose proof (COS_bound (p2 - p1)) as Hd. rewrite cos_minus in Hd.
  assert (0 <= cos p1 * cos p2) by nra.
  split.
  - assert (0 <= cos p1 * cos p2 * s ^ 2) by nra. lra.
  - assert (cos p1 * cos p2 * s ^ 2 <= cos p1 * cos p2) by nra. lra.
Qed.

(** Along a meridian the distance is the arc of the latitude difference. *)
Lemma haversineKm_meridian lat1 lat2 lon :
  Rabs (lat2 - lat1) < 180 ->
  haversineKm lat1 lon lat2 lon = EARTH_R * (Rabs (lat2 - lat1) * PI / 180).
Proof.
  intros Hd. unfold haversineKm, hav_a. pose proof PI_RGT_0 as Hpi.
  replace ((lon - lon) * PI / 180 / 2) with 0 by lra.
  rewrite sin_0.
  set (x := (lat2 - lat1) * PI / 180 / 2).
  replace (sin x ^ 2 + cos (lat1 * PI / 180) * cos (lat2 * PI / 180) * 0 ^ 2)
    with (sin x ^ 2) by ring.
  assert (sin x ^ 2 = sin (Rabs x) ^ 2) as ->.
  { unfold Rabs. destruct (Rcase_abs x); [rewrite sin_neg; ring | reflexivity]. }
  assert (Rabs x = Rabs (lat2 - lat1) * PI / 180 / 2) as Hx.
  { unfold x. unfold Rdiv. rewrite !Rabs_mult.
    rewrite (Rabs_pos_eq PI) by lra.
    rewrite (Rabs_pos_eq (/ 180)) by lra. rewrite (Rabs_pos_eq (/ 2)) by lra.
    reflexivity. }
  set (y := Rabs x) in *.
  assert (0 <= y) by (apply Rabs_pos).
  assert (y < PI / 2) by (rewrite Hx; nra).
  assert (0 <= sin y) by (apply sin_ge_0; lra).
  assert (0 < cos y) by (apply cos_gt_0; lra).
  rewrite sqrt_pow2 by assumption.
  replace (1 - sin y ^ 2) with (cos y ^ 2)
    by (pose proof (sin2_cos2 y) as E; unfold Rsqr in E; nra).
  rewrite sqrt_pow2 by lra.
  rewrite atan2_pos by assumption.
  change (sin y / cos y) with (tan y). rewrite atan_tan by lra.
  rewrite Hx. lra.
Qed.

Lemma north_point_min_dist :
  is_min_dist (pt_lat north_point) (pt_lon north_point) meridian_line one_degree_km.
Proof.
  assert (forall l, 0 <= l <= 2 ->
            haversineKm 3 0 l 0 = EARTH_R * ((3 - l) * PI / 180)) as Hd.
  { intros l Hl. rewrite haversineKm_meridian.
    - rewrite Rabs_left1 by lra. f_equal. lra.
    - rewrite Rabs_left1 by lra. lra. }
  pose proof PI_RGT_0. unfold one_degree_km, EARTH_R in *. split.
  - exists (Vertex 0 2). split; [simpl; tauto |]. simpl. rewrite Hd by lra.
    f_equal. lra.
  - intros v [<- | [<- | [<- | []]]]; simpl; rewrite Hd by lra; nra.
Qed.

Lemma C3_witness_meridian :
  is_near one_degree_km meridian_line north_point = true /\
  is_near (one_degree_km - 1) meridian_line north_point = false.
Proof.
  split.
  - apply (proj2 (proj2 (C3_proximity_selects_within_threshold
                           one_degree_km [north_point] meridian_line))
             north_point one_degree_km north_point_min_dist).
    reflexivity.
  - apply (proj2 (proj2 (C3_proximity_selects_within_threshold
                           (one_degree_km - 1) [north_point] meridian_line))
             north_point one_degree_km north_point_min_dist) with (eps := 1);
      lra.
Defined.

Lemma sydney_melbourne_a :
  0.00312 <= hav_a (-33.8688) 151.2093 (-37.8136) 144.9631 <= 0.00314.
Proof.
  unfold hav_a. pose proof PI_lower. pose proof PI_upper.
  replace ((-37.8136 - -33.8688) * PI / 180 / 2) with (- (1.9724 * PI / 180)) by lra.
  replace ((144.9631 - 151.2093) * PI / 180 / 2) with (- (3.1231 * PI / 180)) by lra.
  replace (-33.8688 * PI / 180) with (- (33.8688 * PI / 180)) by lra.
  replace (-37.8136 * PI / 180) with (- (37.8136 * PI / 180)) by lra.
  rewrite !sin_neg, !cos_neg.
  pose proof (sin_between 0.034423 0.034427 (1.9724 * PI / 180)
                ltac:(lra) ltac:(lra) ltac:(lra) ltac:(lra)) as Hx.
  pose proof (sin_between 0.054506 0.054511 (3.1231 * PI / 180)
                ltac:(lra) ltac:(lra) ltac:(lra) ltac:(lra)) as Hy.
  pose proof (cos_between 0.59110 0.59115 (33.8688 * PI / 180)
                ltac:(lra) ltac:(lra) ltac:(lra) ltac:(lra)) as Hu.
  pose proof (cos_between 0.65995 0.66000 (37.8136 * PI / 180)
                ltac:(lra) ltac:(lra) ltac:(lra) ltac:(lra)) as Hv.
  set (sx := sin (1.9724 * PI / 180)) in *.
  set (sy := sin (3.1231 * PI / 180)) in *.
  set (cu := cos (33.8688 * PI / 180)) in *.
  set (cv := cos (37.8136 * PI / 180)) in *.
  assert (0.03441 <= sx <= 0.03443) as Hx' by lra.
  assert (0.05447 <= sy <= 0.05449) as Hy' by lra.
  assert (0.8302 <= cu <= 0.8304) as Hu' by lra.
  assert (0.7899 <= cv <= 0.7902) as Hv' by lra.
  clear Hx Hy Hu Hv.
  assert (0.001184 <= (- sx) ^ 2 <= 0.001186) by nra.
  assert (0.002966 <= (- sy) ^ 2 <= 0.002970) by nra.
  assert (0.6557 <= cu * cv <= 0.6562) by nra.
  nra.
Qed.

Lemma sydney_melbourne :
  704 <= haversineKm (-33.8688) 151.2093 (-37.8136) 144.9631 <= 724.
Proof.
  unfold haversineKm, EARTH_R.
  pose proof sydney_melbourne_a as Ha.
  set (a := hav_a _ _ _ _) in *.
  pose proof (sqrt_between 0.0558 0.0561 a
                ltac:(lra) ltac:(lra) ltac:(lra) ltac:(lra)) as Hs.
  pose proof (sqrt_between 0.99 1 (1 - a)
                ltac:(lra) ltac:(lra) ltac:(lra) ltac:(lra)) as Hc.
  rewrite atan2_pos by lra.
  assert (0.0558 <= sqrt a / sqrt (1 - a) <= 0.0567) as Ht.
  { split.
    - apply Rmult_le_reg_r with (sqrt (1 - a)); [lra|].
      unfold Rdiv. rewrite Rmult_assoc, Rinv_l, Rmult_1_r by lra. nra.
    - apply Rmult_le_reg_r with (sqrt (1 - a)); [lra|].
      unfold Rdiv. rewrite Rmult_assoc, Rinv_l, Rmult_1_r by lra. nra. }
  set (t := sqrt a / sqrt (1 - a)) in *.
  assert (0.0553 <= atan t <= 0.0568) as Hat.
  { apply atan_between; try lra; nra. }
  lra.
Qed.

(** C8. [haversineKm] is the haversine formula on a sphere of radius
    6371 km.  It is a function of its four arguments alone, defined on all
    of them; for latitudes between the poles the two square roots are
    taken of numbers in [[0, 1]].  It is 0 between a place and itself, and
    between Sydney and Melbourne it lies within 10 km of 714 km. *)
Theorem C8_haversine_radius_zero_and_sydney_melbourne :
  (forall lat1 lon1 lat2 lon2,
      haversineKm lat1 lon1 lat2 lon2 =
      6371 * (2 * atan2 (sqrt (hav_a lat1 lon1 lat2 lon2))
                        (sqrt (1 - hav_a lat1 lon1 lat2 lon2))))
  /\ (forall lat1 lon1 lat2 lon2,
      -90 <= lat1 <= 90 -> -90 <= lat2 <= 90 ->
      0 <= hav_a lat1 lon1 lat2 lon2 <= 1)
  /\ (forall lat lon, haversineKm lat lon lat lon = 0)
  /\ 714 - 10 <= haversineKm (-33.8688) 151.2093 (-37.8136) 144.9631 <= 714 + 10.
Proof.
  split; [reflexivity |].
  split; [exact hav_a_range |].
  split; [exact haversineKm_same |].
  pose proof sydney_melbourne. lra.
Qed.

Lemma C8_witness_sydney_melbourne :
  0 <= hav_a (-33.8688) 151.2093 (-37.8136) 144.9631 <= 1.
Proof.
  apply (proj1 (proj2 C8_haversine_radius_zero_and_sydney_melbourne)); lra.
Defined.

(** ** The gap loop of the v7 script *)

Lemma gap_loop_fold gap rest : forall last maxGap,
  V7.gap_loop gap last rest maxGap =
  fold_left (gap_update gap) (seg_dists_from last rest) maxGap.
Proof.
  induction rest as [|p rest IH]; intros last maxGap; simpl; [reflexivity|].
  now rewrite IH.
Qed.

Lemma seg_km_nonneg p q : 0 <= V7.seg_km p q.
Proof.
  destruct p as [lat1 lon1], q as [lat2 lon2]. unfold V7.seg_km.
  pose proof (sqrt_pos ((lat2 - lat1) ^ 2
    + ((lon2 - lon1) * cos ((lat1 + lat2) * PI / 360)) ^ 2)). lra.
Qed.

Lemma seg_dists_from_nonneg rest : forall last x,
  In x (seg_dists_from last rest) -> 0 <= x.
Proof.
  induction rest as [|p rest IH]; intros last x; simpl; [tauto|].
  intros [<- | H]; [apply seg_km_nonneg | eauto].
Qed.

(** The loop keeps the start value or ends on a distance above the gap,
    and it ends at or above every distance above the gap. *)
Lemma gap_fold_spec gap l : forall acc,
  let r := fold_left (gap_update gap) l acc in
  acc <= r /\
  (forall x, In x l -> x > gap -> x <= r) /\
  (r = acc \/ (In r l /\ r > gap)).
Proof.
  induction l as [|d l IH]; intros acc; simpl.
  - split; [lra | split; [tauto | now left]].
  - destruct (IH (gap_update gap acc d)) as (Hle & Hup & Hcase).
    assert (acc <= gap_update gap acc d) as Hacc.
    { unfold gap_update. case_bool_decide; [apply Rmax_l | lra]. }
    split; [lra|]. split.
    + intros x [<- | Hx] Hg; [| now apply Hup].
      apply Rle_trans with (gap_update gap acc d); [| assumption].
      unfold gap_update. rewrite bool_decide_eq_true_2 by assumption. apply Rmax_r.
    + destruct Hcase as [Hr | [Hin Hg]]; [| right; tauto].
      rewrite Hr. unfold gap_update. case_bool_decide as Hd; [| now left].
      unfold Rmax. destruct (Rle_dec acc d); [right; tauto | now left].
Qed.

Lemma max_exists (l : list R) : l <> [] -> exists M, is_max_of l M.
Proof.
  induction l as [|x l IH]; [congruence | intros _].
  destruct l as [|y l].
  - exists x. split; [now left | intros z [<- | []]; lra].
  - destruct IH as (M & HM & Hub); [discriminate |].
    destruct (Rle_dec x M).
    + exists M. split; [now right | intros z [<- | Hz]; [lra | now apply Hub]].
    + exists x. split; [now left |].
      intros z [<- | Hz]; [lra | specialize (Hub z Hz); lra].
Qed.

Lemma seg_km_north (d : R) : 0 <= d -> V7.seg_km (0, 0) (d, 0) = 111 * d.
Proof.
  intros Hd. unfold V7.seg_km.
  replace ((d - 0) ^ 2 + ((0 - 0) * cos ((0 + d) * PI / 360)) ^ 2)
    with (d ^ 2) by ring.
  now rewrite sqrt_pow2.
Qed.

(** C2, as stated, fails: on the two vertices (0, 0) and (1, 0) the only
    pair of consecutive vertices is 111 km apart, and the detector's
    [maxGap] is 0. *)
Lemma C2_counterexample_short_segment :
  (2 <= length [(0, 0); (1, 0)])%nat /\
  is_max_of (seg_dists [(0, 0); (1, 0)]) 111 /\
  V7.maxGapKm V7.CHARGER_GAP_KM [(0, 0); (1, 0)] = 0 /\
  V7.maxGapKm V7.CHARGER_GAP_KM [(0, 0); (1, 0)] <> 111.
Proof.
  assert (V7.seg_km (0, 0) (1, 0) = 111) as E by (rewrite seg_km_north; lra).
  assert (V7.maxGapKm V7.CHARGER_GAP_KM [(0, 0); (1, 0)] = 0) as E0.
  { unfold V7.maxGapKm, V7.gap_loop, V7.CHARGER_GAP_KM. rewrite E.
    rewrite bool_decide_eq_false_2; [reflexivity | lra]. }
  split; [simpl; lia |]. split; [| split; [exact E0 | rewrite E0; lra]].
  unfold seg_dists, seg_dists_from. rewrite E.
  split; [now left | intros x [<- | []]; lra].
Qed.

(** C2, amended.  For a polyline of at least two vertices, let [M] be the
    greatest distance between consecutive vertices (flat approximation
    with the longitude scaled by the cosine of the mean latitude).  The
    detector's [maxGap] is [M] when [M] exceeds the gap threshold and 0
    otherwise, and the warning is raised exactly when [M] exceeds the
    threshold. *)
Theorem C2_gap_detector_keeps_only_gaps_over_threshold
    (gap : R) (coords : list V7.latlon) :
  (2 <= length coords)%nat ->
  exists M, is_max_of (seg_dists coords) M /\
    V7.maxGapKm gap coords = (if bool_decide (M > gap) then M else 0) /\
    (V7.gap_warning gap coords = true <-> M > gap).
Proof.
  intros Hlen. destruct coords as [|c0 [|c1 rest]]; simpl in Hlen; try lia.
  destruct (max_exists (seg_dists (c0 :: c1 :: rest))) as (M & HM);
    [discriminate |].
  exists M. split; [exact HM |].
  assert (V7.maxGapKm gap (c0 :: c1 :: rest)
          = (if bool_decide (M > gap) then M else 0)) as Hmax.
  { unfold V7.maxGapKm. rewrite gap_loop_fold.
    destruct HM as [Hin Hub]. unfold seg_dists in Hin, Hub.
    pose proof (seg_dists_from_nonneg _ _ _ Hin) as HM0.
    destruct (gap_fold_spec gap (seg_dists_from c0 (c1 :: rest)) 0)
      as (H0 & Hup & Hcase).
    set (r := fold_left (gap_update gap) (seg_dists_from c0 (c1 :: rest)) 0) in *.
    case_bool_decide as Hg.
    - specialize (Hup M Hin Hg).
      destruct Hcase as [Hr | [Hr _]]; [lra | specialize (Hub r Hr); lra].
    - destruct Hcase as [Hr | [Hr Hrg]]; [exact Hr | specialize (Hub r Hr); lra]. }
  split; [exact Hmax |].
  unfold V7.gap_warning. rewrite Hmax, bool_decide_eq_true.
  destruct HM as [Hin _]. pose proof (seg_dists_from_nonneg _ _ _ Hin).
  case_bool_decide; lra.
Qed.

Lemma C2_witness_long_segment :
  exists M, is_max_of (seg_dists [(0, 0); (3, 0)]) M /\
    V7.maxGapKm V7.CHARGER_GAP_KM [(0, 0); (3, 0)]
      = (if bool_decide (M > V7.CHARGER_GAP_KM) then M else 0) /\
    (V7.gap_warning V7.CHARGER_GAP_KM [(0, 0); (3, 0)] = true
       <-> M > V7.CHARGER_GAP_KM).
Proof.
  apply (C2_gap_detector_keeps_only_gaps_over_threshold
           V7.CHARGER_GAP_KM [(0, 0); (3, 0)]).
  simpl. lia.
Defined.

(** ** The geocoder lookup *)

Lemma unique_fold items : forall u seen,
  fst (fold_left unique_step items (u, seen)) = u ++ keep_first seen items.
Proof.
  induction items as [|it rest IH]; intros u seen; simpl.
  - now rewrite app_nil_r.
  - unfold unique_step at 2. simpl. case_bool_decide.
    + apply IH.
    + rewrite IH. now rewrite <- List.app_assoc.
Qed.

Lemma unique_of_keep_first items : unique_of items = keep_first ∅ items.
Proof. unfold unique_of. now rewrite unique_fold. Qed.

Lemma keep_first_labels items : forall seen it,
  In it (keep_first seen items) -> (label it ∉ seen) /\ In it items.
Proof.
  induction items as [|x rest IH]; intros seen it; simpl; [tauto|].
  case_bool_decide as Hx.
  - intros Hin. destruct (IH _ _ Hin). tauto.
  - intros [<- | Hin]; [tauto |].
    destruct (IH _ _ Hin) as [Hn ?]. split; [| tauto].
    intros Hs. apply Hn. apply elem_of_union. now right.
Qed.

Lemma keep_first_NoDup items : forall seen,
  List.NoDup (map label (keep_first seen items)).
Proof.
  induction items as [|x rest IH]; intros seen; simpl; [constructor|].
  case_bool_decide as Hx; [apply IH |].
  simpl. constructor; [| apply IH].
  intros Hin. apply in_map_iff in Hin. destruct Hin as (y & Hy & Hin).
  apply keep_first_labels in Hin. destruct Hin as [Hn _].
  apply Hn. apply elem_of_union. left. apply elem_of_singleton. congruence.
Qed.

Lemma keep_first_sublist items : forall seen,
  sublist (keep_first seen items) items.
Proof.
  induction items as [|x rest IH]; intros seen; simpl; [constructor|].
  case_bool_decide; [apply sublist_cons | apply sublist_skip]; apply IH.
Qed.

Lemma keep_first_first items : forall seen l,
  first_labelled l (keep_first seen items) =
  if bool_decide (l ∈ seen) then None else first_labelled l items.
Proof.
  unfold first_labelled.
  induction items as [|x rest IH]; intros seen l; simpl.
  - now case_bool_decide.
  - case_bool_decide as Hx.
    + rewrite IH. case_bool_decide as Hl; [reflexivity |].
      rewrite bool_decide_eq_false_2; [reflexivity | congruence].
    + simpl. case_bool_decide as Hxl.
      * subst l. now rewrite bool_decide_eq_false_2.
      * rewrite IH.
        assert (l ∈ {[label x]} ∪ seen <-> l ∈ seen) as Heq
          by (rewrite elem_of_union, elem_of_singleton; intuition congruence).
        now rewrite (bool_decide_ext _ _ Heq).
Qed.

(** The snippet's loop keeps, for every label, the first item that carries
    it and nothing else, in the order of the input. *)
Lemma snippet_unique_spec (items : list candidate) :
  List.NoDup (map label (unique_of items)) /\
  sublist (unique_of items) items /\
  (forall l, first_labelled l (unique_of items) = first_labelled l items).
Proof.
  rewrite unique_of_keep_first. split; [apply keep_first_NoDup |].
  split; [apply keep_first_sublist |].
  intros l. rewrite keep_first_first. now rewrite bool_decide_eq_false_2.
Qed.

(** The snippet stores the deduplicated sequence and returns it. *)
Lemma snippet_store_spec geoCache q w data :
  let '(unique, cache') := snippet_store geoCache q w data in
  unique = unique_of (snippet_items data) /\
  cache' !! cache_key w q = Some unique /\
  map label unique = map label (unique_of (snippet_items data)).
Proof.
  unfold snippet_store. split; [reflexivity |]. split; [| reflexivity].
  apply lookup_insert_eq.
Qed.

(** The example of the specification, on the snippet: the labels
    [A, B, A, C] come out as [A, B, C], the first [A] being the one kept. *)
Lemma snippet_dedup_example (x1 y1 x2 y2 x3 y3 x4 y4 : R) :
  unique_of [Candidate "A" x1 y1; Candidate "B" x2 y2;
             Candidate "A" x3 y3; Candidate "C" x4 y4]
  = [Candidate "A" x1 y1; Candidate "B" x2 y2; Candidate "C" x4 y4].
Proof.
  rewrite unique_of_keep_first. simpl.
  repeat (case_bool_decide; try set_solver).
Qed.

(** C5 on the v6 script: [nominatimSuggest] of v6 maps the answer to
    candidates and stores them as they are.  On an answer whose display
    names are [A, B, A, C] (no entry for the key yet) it returns and caches
    four candidates with the labels [A, B, A, C]; the loop of the snippet
    file turns the same candidates into three, [A, B, C]. *)
Theorem C5_v6_suggestions_keep_duplicate_labels :
  nominatimSuggest (fun _ => Response true (Some answer_ABAC)) ∅ "abc" O
  = (items_of answer_ABAC,
     <[cache_key O "abc" := items_of answer_ABAC]> ∅,
     ["abc"%string])
  /\ map label (items_of answer_ABAC) = ["A"; "B"; "A"; "C"]%string
  /\ map label (unique_of (items_of answer_ABAC)) = ["A"; "B"; "C"]%string.
Proof.
  split; [reflexivity |]. split; [reflexivity |].
  unfold items_of, answer_ABAC. cbn [map display_name d_lat d_lon].
  now rewrite snippet_dedup_example.
Qed.

Lemma begin_short geoCache q w :
  (String.length q < 3)%nat -> nominatimSuggest_begin geoCache q w = Returns [].
Proof.
  intros H. unfold nominatimSuggest_begin.
  apply Nat.ltb_lt in H. rewrite H. now rewrite orb_true_r.
Qed.

Lemma begin_long geoCache q w :
  (3 <= String.length q)%nat ->
  nominatimSuggest_begin geoCache q w =
  match geoCache !! cache_key w q with
  | Some items => Returns items
  | None => Awaits q
  end.
Proof.
  intros H. unfold nominatimSuggest_begin.
  destruct q as [|c q]; [simpl in H; lia |].
  apply Nat.ltb_ge in H. now rewrite H.
Qed.

(** What [nominatimSuggest] leaves in the cache: the cache it found, or
    that cache with the key of the call set. *)
Lemma resume_cache geoCache q w r :
  snd (nominatimSuggest_resume geoCache q w r) = geoCache \/
  exists items, snd (nominatimSuggest_resume geoCache q w r)
                = <[cache_key w q := items]> geoCache.
Proof.
  destruct r as [|[|] [data|]]; simpl; eauto.
Qed.

Lemma resume_keeps_keys geoCache q w r k :
  is_Some (geoCache !! k) ->
  is_Some (snd (nominatimSuggest_resume geoCache q w r) !! k).
Proof.
  intros Hk. destruct (resume_cache geoCache q w r) as [-> | (items & ->)];
    [assumption |].
  rewrite lookup_insert. case_decide; [eauto | assumption].
Qed.

Lemma render_geoCache geo km st : V6.geoCache (V6.render geo km st) = V6.geoCache st.
Proof.
  unfold V6.render. destruct geo as [[|c cs]|]; try reflexivity.
  now destruct (near_loop V6.PROX_KM (V6.EV_POINTS st) (c :: cs)).
Qed.

Lemma route_done_geoCache r st :
  V6.geoCache (V6.route_done r st) = V6.geoCache st.
Proof.
  unfold V6.route_done.
  destruct r as [|[|] [[[[|route rs]|]]|]]; try reflexivity.
  apply render_geoCache.
Qed.

Lemma route_begin_geoCache o d st :
  V6.geoCache (V6.route_begin o d st) = V6.geoCache st.
Proof. now destruct o, d. Qed.

Lemma dest_begin_geoCache o destTxt st :
  V6.geoCache (V6.dest_begin o destTxt st) = V6.geoCache st.
Proof.
  unfold V6.dest_begin.
  destruct (geocodeFirst_begin (V6.geoCache st) destTxt D);
    [apply route_begin_geoCache | reflexivity].
Qed.

Lemma doRoute_geoCache st : V6.geoCache (V6.doRoute st) = V6.geoCache st.
Proof.
  unfold V6.doRoute.
  destruct (Str.falsy _ || Str.falsy _); [reflexivity |].
  destruct (geocodeFirst_begin _ _ O); [| reflexivity].
  now rewrite dest_begin_geoCache.
Qed.

Lemma suggest_geoCache w st : V6.geoCache (V6.suggest w st) = V6.geoCache st.
Proof.
  unfold V6.suggest. now destruct (nominatimSuggest_begin _ _ w).
Qed.

(** No step of the page removes a key from the cache. *)
Lemma step_keeps_keys st e k :
  is_Some (V6.geoCache st !! k) -> is_Some (V6.geoCache (V6.step st e) !! k).
Proof.
  intros Hk. destruct e as [w s | w | | | id r]; simpl.
  - exact Hk.
  - now rewrite suggest_geoCache.
  - now rewrite doRoute_geoCache.
  - exact Hk.
  - destruct (V6.pending st !! id) as [t|]; [| exact Hk].
    destruct (V6.deliverable t r) eqn:Hd; [| exact Hk].
    destruct t as [w q | o' d' | o' d' | o' d'], r as [g | g];
      try discriminate Hd; unfold V6.resume.
    + pose proof (resume_keeps_keys (V6.geoCache st) q w g k Hk) as Hr.
      simpl. destruct (nominatimSuggest_resume _ q w g) as [items c].
      exact Hr.
    + pose proof (resume_keeps_keys (V6.geoCache st) o' O g k Hk) as Hr.
      unfold geocodeFirst_resume. simpl.
      destruct (nominatimSuggest_resume _ o' O g) as [items c].
      now rewrite dest_begin_geoCache.
    + pose proof (resume_keeps_keys (V6.geoCache st) d' D g k Hk) as Hr.
      unfold geocodeFirst_resume. simpl.
      destruct (nominatimSuggest_resume _ d' D g) as [items c].
      now rewrite route_begin_geoCache.
    + now rewrite route_done_geoCache.
Qed.

Lemma run_keeps_keys evs : forall st k,
  is_Some (V6.geoCache st !! k) -> is_Some (V6.geoCache (V6.run st evs) !! k).
Proof.
  induction evs as [|e evs IH]; intros st k Hk; [exact Hk |].
  apply IH. now apply step_keeps_keys.
Qed.

(** ** Entries of the cache over the life of the page *)

Lemma begin_awaits geoCache q w q' :
  nominatimSuggest_begin geoCache q w = Awaits q' ->
  geoCache !! cache_key w q = None.
Proof.
  unfold nominatimSuggest_begin.
  destruct (Str.falsy q || (String.length q <? 3)%nat); [discriminate |].
  now destruct (geoCache !! cache_key w q).
Qed.

Lemma first_awaits geoCache lbl w q' :
  geocodeFirst_begin geoCache lbl w = FirstAwaits q' ->
  geoCache !! cache_key w lbl = None.
Proof.
  unfold geocodeFirst_begin.
  now destruct (geoCache !! cache_key w lbl).
Qed.

Lemma resume_lookup_ne geoCache q w r k :
  cache_key w q <> k ->
  snd (nominatimSuggest_resume geoCache q w r) !! k = geoCache !! k.
Proof.
  intros Hne.
  destruct (resume_cache geoCache q w r) as [-> | (items & ->)];
    [reflexivity |].
  now rewrite lookup_insert_ne.
Qed.

Lemma render_pending geo km st : V6.pending (V6.render geo km st) = V6.pending st.
Proof.
  unfold V6.render. destruct geo as [[|c cs]|]; try reflexivity.
  now destruct (near_loop V6.PROX_KM (V6.EV_POINTS st) (c :: cs)).
Qed.

Lemma route_done_pending r st :
  V6.pending (V6.route_done r st) = V6.pending st.
Proof.
  unfold V6.route_done.
  destruct r as [|[|] [[[[|route rs]|]]|]]; try reflexivity.
  apply render_pending.
Qed.

(** A state with the same cache and the same suspended calls. *)
Lemma stable_frame k items st st' :
  V6.geoCache st' = V6.geoCache st -> V6.pending st' = V6.pending st ->
  V6.geoCache st !! k = Some items /\ no_lookup_in_flight k st ->
  V6.geoCache st' !! k = Some items /\ no_lookup_in_flight k st'.
Proof.
  intros Hc Hp [Hk Hn]. split; [now rewrite Hc |].
  intros id t. rewrite Hp. apply Hn.
Qed.

Lemma stable_suspend k items t rq st :
  stores_under t <> Some k ->
  V6.geoCache st !! k = Some items /\ no_lookup_in_flight k st ->
  V6.geoCache (V6.suspend t rq st) !! k = Some items /\
  no_lookup_in_flight k (V6.suspend t rq st).
Proof.
  intros Ht [Hk Hn]. split; [exact Hk |].
  intros id t'. cbn [V6.suspend V6.pending].
  rewrite lookup_insert_Some. intros [[_ <-] | [_ H]]; [exact Ht |].
  exact (Hn _ _ H).
Qed.

Lemma stable_route_begin k items o d st :
  V6.geoCache st !! k = Some items /\ no_lookup_in_flight k st ->
  V6.geoCache (V6.route_begin o d st) !! k = Some items /\
  no_lookup_in_flight k (V6.route_begin o d st).
Proof.
  intros H. unfold V6.route_begin.
  destruct o as [o'|], d as [d'|];
    try (apply (stable_frame k items st); [reflexivity | reflexivity | exact H]).
  apply stable_suspend; [discriminate | exact H].
Qed.

Lemma stable_dest_begin k items o destTxt st :
  V6.geoCache st !! k = Some items /\ no_lookup_in_flight k st ->
  V6.geoCache (V6.dest_begin o destTxt st) !! k = Some items /\
  no_lookup_in_flight k (V6.dest_begin o destTxt st).
Proof.
  intros H. unfold V6.dest_begin.
  destruct (geocodeFirst_begin (V6.geoCache st) destTxt D) as [d | q] eqn:Hb.
  - now apply stable_route_begin.
  - apply stable_suspend; [| exact H].
    apply first_awaits in Hb. cbn [stores_under].
    intros [= E]. rewrite E in Hb. destruct H as [Hk _]. congruence.
Qed.

(** An entry for whose key no lookup is in flight stays as it is, and no
    lookup for its key is started, whatever the next event is. *)
Lemma stable_step k items st e :
  V6.geoCache st !! k = Some items /\ no_lookup_in_flight k st ->
  V6.geoCache (V6.step st e) !! k = Some items /\
  no_lookup_in_flight k (V6.step st e).
Proof.
  intros H. pose proof H as [Hk Hn].
  destruct e as [w s | w | | | id r]; cbn [V6.step].
  - apply (stable_frame k items st); [reflexivity | reflexivity | exact H].
  - unfold V6.suggest.
    destruct (nominatimSuggest_begin (V6.geoCache st) _ w) as [its | q'] eqn:Hb.
    + apply (stable_frame k items st); [reflexivity | reflexivity | exact H].
    + apply stable_suspend; [| exact H].
      apply begin_awaits in Hb. cbn [stores_under].
      intros [= E]. rewrite E in Hb. congruence.
  - unfold V6.doRoute.
    set (st1 := V6.with_msg (V6.Text "Finding route...") st).
    assert (V6.geoCache st1 !! k = Some items /\ no_lookup_in_flight k st1) as H1
      by (apply (stable_frame k items st); [reflexivity | reflexivity | exact H]).
    destruct (Str.falsy _ || Str.falsy _).
    + apply (stable_frame k items st1); [reflexivity | reflexivity | exact H1].
    + destruct (geocodeFirst_begin (V6.geoCache st1) _ O) as [o | q] eqn:Hb.
      * now apply stable_dest_begin.
      * apply stable_suspend; [| exact H1].
        apply first_awaits in Hb. cbn [stores_under].
        intros [= E]. destruct H1 as [Hk1 _].
        assert (V6.geoCache st1 !! k = None) as Hnone
          by (rewrite <- E; exact Hb).
        congruence.
  - apply (stable_frame k items st); [reflexivity | reflexivity | exact H].
  - destruct (V6.pending st !! id) as [t|] eqn:Hp; [| exact H].
    destruct (V6.deliverable t r) eqn:Hd; [| exact H].
    pose proof (Hn _ _ Hp) as Ht.
    assert (no_lookup_in_flight k (V6.resumed id st)) as Hn'.
    { intros id' t'. cbn [V6.resumed V6.pending].
      rewrite lookup_delete_Some. intros [_ H']. exact (Hn _ _ H'). }
    destruct t as [w q | originTxt destTxt | o destTxt | o d], r as [g | g];
      try discriminate Hd; unfold V6.resume.
    + assert (cache_key w q <> k) as Hne
        by (intros E; apply Ht; cbn [stores_under]; now rewrite E).
      pose proof (resume_lookup_ne (V6.geoCache st) q w g k Hne) as Hr.
      change (V6.geoCache (V6.resumed id st)) with (V6.geoCache st).
      destruct (nominatimSuggest_resume (V6.geoCache st) q w g) as [its c].
      cbn [snd] in Hr.
      apply (stable_frame k items (V6.with_cache c (V6.resumed id st)));
        [reflexivity | reflexivity |].
      split; [cbn [V6.with_cache V6.geoCache]; now rewrite Hr | exact Hn'].
    + assert (cache_key O originTxt <> k) as Hne
        by (intros E; apply Ht; cbn [stores_under]; now rewrite E).
      pose proof (resume_lookup_ne (V6.geoCache st) originTxt O g k Hne) as Hr.
      unfold geocodeFirst_resume.
      change (V6.geoCache (V6.resumed id st)) with (V6.geoCache st).
      destruct (nominatimSuggest_resume (V6.geoCache st) originTxt O g) as [its c].
      cbn [snd] in Hr.
      apply stable_dest_begin.
      split; [cbn [V6.with_cache V6.geoCache]; now rewrite Hr | exact Hn'].
    + assert (cache_key D destTxt <> k) as Hne
        by (intros E; apply Ht; cbn [stores_under]; now rewrite E).
      pose proof (resume_lookup_ne (V6.geoCache st) destTxt D g k Hne) as Hr.
      unfold geocodeFirst_resume.
      change (V6.geoCache (V6.resumed id st)) with (V6.geoCache st).
      destruct (nominatimSuggest_resume (V6.geoCache st) destTxt D g) as [its c].
      cbn [snd] in Hr.
      apply stable_route_begin.
      split; [cbn [V6.with_cache V6.geoCache]; now rewrite Hr | exact Hn'].
    + apply (stable_frame k items (V6.resumed id st));
        [apply route_done_geoCache | apply route_done_pending |].
      split; [exact Hk | exact Hn'].
Qed.

Lemma stable_run evs : forall k items st,
  V6.geoCache st !! k = Some items /\ no_lookup_in_flight k st ->
  V6.geoCache (V6.run st evs) !! k = Some items /\
  no_lookup_in_flight k (V6.run st evs).
Proof.
  induction evs as [|e evs IH]; intros k items st H; [exact H |].
  apply (IH k items (V6.step st e)). now apply stable_step.
Qed.

(** The state of the page after [two_lookups] and after the answer to
    call 1. *)
Lemma two_lookups_state :
  let st1 := V6.run (V6.init [] false) two_lookups in
  let st2 := V6.step st1 (V6.EvComplete 1 answer_south) in
  let st3 := V6.step st2 (V6.EvSuggest O) in
  V6.geoCache st1 !! cache_key O "Perth" = Some [Candidate "Perth WA" 1 2]
  /\ V6.originList st1 = ["Perth WA"%string]
  /\ V6.pending st1 !! 1%nat = Some (V6.TSuggest O "Perth")
  /\ V6.geoCache st2 !! cache_key O "Perth" = Some [Candidate "Perth TAS" 3 4]
  /\ V6.requests st3 = V6.requests st2
  /\ V6.originList st3 = ["Perth TAS"%string].
Proof. repeat split; reflexivity. Qed.

(** C4, as stated, fails.  Two lookups for the origin "Perth" are in
    flight together, the cache being tested before the request and
    written after it.  The first to complete stores its candidates and
    shows them; the second, completing later with another answer, stores
    its own under the same key: the cache after is not an extension of
    the cache before, and the next lookup, answered from the cache without
    a request, returns the second sequence, not the first. *)
Lemma C4_counterexample_entry_overwritten :
  let st1 := V6.run (V6.init [] false) two_lookups in
  let st2 := V6.step st1 (V6.EvComplete 1 answer_south) in
  let st3 := V6.step st2 (V6.EvSuggest O) in
  V6.geoCache st1 !! cache_key O "Perth" = Some [Candidate "Perth WA" 1 2]
  /\ V6.originList st1 = ["Perth WA"%string]
  /\ V6.geoCache st2 !! cache_key O "Perth" = Some [Candidate "Perth TAS" 3 4]
  /\ ~ V6.geoCache st1 ⊆ V6.geoCache st2
  /\ V6.requests st3 = V6.requests st2
  /\ V6.originList st3 = ["Perth TAS"%string].
Proof.
  cbv zeta. pose proof two_lookups_state as H. cbv zeta in H.
  set (st1 := V6.run _ two_lookups) in *.
  set (st2 := V6.step st1 (V6.EvComplete 1 answer_south)) in *.
  set (st3 := V6.step st2 (V6.EvSuggest O)) in *.
  clearbody st3. clearbody st2. clearbody st1.
  destruct H as (H1 & L1 & _ & H2 & R3 & L3).
  split; [exact H1 |]. split; [exact L1 |]. split; [exact H2 |].
  split; [| split; [exact R3 | exact L3]].
  intros Hsub.
  pose proof (proj1 (map_subseteq_spec _ _) Hsub _ _ H1) as H.
  rewrite H2 in H. discriminate H.
Qed.

(** C4, amended.  A lookup for a direction and a text of at least 3
    characters whose key is in the cache when it is called sends no
    request and returns the sequence stored under the key, against any
    network; a text shorter than 3 characters returns the empty sequence
    without a request.  A lookup that completes with a successful answer
    stores the candidates it shows under its key, replacing what was
    there.  No event of the page removes a key, and an entry for whose key
    no lookup is in flight is never changed again, nor is a lookup for its
    key ever started: from then on every lookup for the pair returns that
    same sequence. *)
Theorem C4_cached_lookup_sends_no_request :
  (forall net geoCache q w items,
      (3 <= String.length q)%nat ->
      geoCache !! cache_key w q = Some items ->
      nominatimSuggest net geoCache q w = (items, geoCache, []))
  /\ (forall net geoCache q w,
      (String.length q < 3)%nat ->
      nominatimSuggest net geoCache q w = ([], geoCache, []))
  /\ (forall (st : V6.page) id w q data,
      V6.pending st !! id = Some (V6.TSuggest w q) ->
      let st' := V6.step st
        (V6.EvComplete id (GeoResult (Response true (Some data)))) in
      V6.geoCache st' = <[cache_key w q := items_of data]> (V6.geoCache st) /\
      list_of w st' = map label (items_of data))
  /\ (forall st evs k,
      is_Some (V6.geoCache st !! k) ->
      is_Some (V6.geoCache (V6.run st evs) !! k))
  /\ (forall st evs k items,
      V6.geoCache st !! k = Some items ->
      no_lookup_in_flight k st ->
      V6.geoCache (V6.run st evs) !! k = Some items /\
      no_lookup_in_flight k (V6.run st evs)).
Proof.
  split; [| split; [| split; [| split]]].
  - intros net geoCache q w items Hlen Hc.
    unfold nominatimSuggest. rewrite begin_long by assumption.
    now rewrite Hc.
  - intros net geoCache q w Hlen. unfold nominatimSuggest.
    now rewrite begin_short.
  - intros st id w q data Hp st'. subst st'.
    cbn [V6.step]. rewrite Hp. cbn [V6.deliverable V6.resume].
    cbn [nominatimSuggest_resume]. split; [now destruct w | now destruct w].
  - intros st evs k. apply run_keeps_keys.
  - intros st evs k items Hk Hn. now apply stable_run.
Qed.

Lemma C4_witness_second_lookup :
  let net' := fun _ : string => @NetworkError (list nominatim_item) in
  let items := [Candidate "Perth" 1 2] in
  let later := V6.run page_with_cached_perth [V6.EvFind; V6.EvClear] in
  nominatimSuggest net' (<[cache_key O "Perth" := items]> ∅) "Perth" O
  = (items, <[cache_key O "Perth" := items]> ∅, [])
  /\ V6.geoCache later !! cache_key D "Perth" = Some [Candidate "Perth" (-32) 116]
  /\ no_lookup_in_flight (cache_key D "Perth") later.
Proof.
  intros net' items later. split.
  - apply (proj1 C4_cached_lookup_sends_no_request net'
             (<[cache_key O "Perth" := items]> ∅) "Perth" O items).
    + simpl. lia.
    + apply lookup_insert_eq.
  - apply (proj2 (proj2 (proj2 (proj2 C4_cached_lookup_sends_no_request)))
             page_with_cached_perth [V6.EvFind; V6.EvClear]).
    + reflexivity.
    + intros id t H. unfold page_with_cached_perth in H.
      cbn [V6.pending] in H. rewrite lookup_empty in H. discriminate H.
Defined.

(** C9. When the request of a lookup fails (the request is rejected, the
    status is not successful, or the body does not parse), the call
    returns the empty sequence and leaves the cache as it found it; the
    key is still absent, so the next lookup for the same direction and
    text sends the request again. *)
Theorem C9_failed_lookup_leaves_cache_and_retries
    (net net' : string -> fetched (list nominatim_item))
    (geoCache : gmap string (list candidate)) (q : string) (w : which) :
  (3 <= String.length q)%nat ->
  geoCache !! cache_key w q = None ->
  (net q = NetworkError \/ (exists body, net q = Response false body)
   \/ net q = Response true None) ->
  nominatimSuggest net geoCache q w = ([], geoCache, [q]) /\
  nominatimSuggest_resume geoCache q w (net q) = ([], geoCache) /\
  snd (nominatimSuggest net' geoCache q w) = [q].
Proof.
  intros Hlen Hmiss Hfail.
  assert (nominatimSuggest_resume geoCache q w (net q) = ([], geoCache)) as Hr.
  { destruct Hfail as [-> | [[body ->] | ->]]; reflexivity. }
  unfold nominatimSuggest. rewrite begin_long by assumption. rewrite Hmiss.
  rewrite Hr. split; [reflexivity |]. split; [reflexivity |].
  now destruct (nominatimSuggest_resume geoCache q w (net' q)).
Qed.

Lemma C9_witness_http_error :
  let net := fun _ : string => @Response (list nominatim_item) false None in
  nominatimSuggest net ∅ "Perth" O = ([], ∅, ["Perth"%string]) /\
  nominatimSuggest_resume ∅ "Perth" O (net "Perth"%string) = ([], ∅) /\
  snd (nominatimSuggest net ∅ "Perth" O) = ["Perth"%string].
Proof.
  intros net.
  apply (C9_failed_lookup_leaves_cache_and_retries net net ∅ "Perth" O).
  - simpl. lia.
  - reflexivity.
  - right. left. exists None. reflexivity.
Defined.

(** ** The pages *)

(** C10. The click on Clear empties the route layer and the near layer,
    removes the heat layer and empties the message; the charger points,
    the cache, the two fields and their suggestion lists, the suspended
    calls and the requests sent stay as they were (and so does the view of
    the map).  A query whose key is in the cache is therefore still
    answered from the cache after Clear, without a request. *)
Theorem C10_clear_resets_overlays_only (st : V6.page) :
  V6.clear st =
    V6.Page (V6.EV_POINTS st) (V6.heatPlugin st) (V6.originVal st) (V6.destVal st)
            (V6.originList st) (V6.destList st) (V6.geoCache st)
            (V6.Surface [] [] None (V6.mapView (V6.surf st)) (V6.Text ""))
            (V6.pending st) (V6.nextId st) (V6.requests st)
  /\ (forall net q w items,
        (3 <= String.length q)%nat ->
        V6.geoCache st !! cache_key w q = Some items ->
        nominatimSuggest net (V6.geoCache (V6.clear st)) q w
        = (items, V6.geoCache st, []))
  /\ (forall w,
        (3 <= String.length (match w with O => V6.originVal st | D => V6.destVal st end))%nat ->
        is_Some (V6.geoCache st
                 !! cache_key w (match w with O => V6.originVal st | D => V6.destVal st end)) ->
        V6.requests (V6.step (V6.clear st) (V6.EvSuggest w)) = V6.requests st).
Proof.
  split; [reflexivity |]. split.
  - intros net q w items Hlen Hc. unfold nominatimSuggest.
    rewrite begin_long by assumption.
    change (V6.geoCache (V6.clear st)) with (V6.geoCache st). now rewrite Hc.
  - intros w Hlen [items Hc]. simpl. unfold V6.suggest.
    change (V6.geoCache (V6.clear st)) with (V6.geoCache st).
    change (V6.originVal (V6.clear st)) with (V6.originVal st).
    change (V6.destVal (V6.clear st)) with (V6.destVal st).
    rewrite begin_long by assumption. rewrite Hc. now destruct w.
Qed.

Lemma C10_witness_cached_after_clear :
  nominatimSuggest (fun _ => NetworkError)
    (V6.geoCache (V6.clear page_with_cached_perth)) "Perth" D
  = ([Candidate "Perth" (-32) 116], V6.geoCache page_with_cached_perth, []).
Proof.
  apply (proj1 (proj2 (C10_clear_resets_overlays_only page_with_cached_perth))).
  - simpl. lia.
  - apply lookup_insert_eq.
Defined.

(** On the v6 script an empty field (after trimming) is reported at once:
    only the message changes, no request is sent and no call is left
    suspended. *)
Lemma v6_doRoute_input_incomplete (st : V6.page) :
  Str.trim (V6.originVal st) = ""%string \/ Str.trim (V6.destVal st) = ""%string ->
  V6.step st V6.EvFind
  = V6.with_msg (V6.Text "Please enter both origin and destination.") st.
Proof.
  intros H. simpl. unfold V6.doRoute.
  change (V6.originVal (V6.with_msg _ st)) with (V6.originVal st).
  change (V6.destVal (V6.with_msg _ st)) with (V6.destVal st).
  assert (Str.falsy (Str.trim (V6.originVal st))
          || Str.falsy (Str.trim (V6.destVal st)) = true) as ->.
  { destruct H as [-> | ->]; [reflexivity | apply orb_true_r]. }
  reflexivity.
Qed.

(** C6 on the v7 script: [findRoute] does not look at the two texts before
    it calls the geocoder.  With the destination field emptied, a click
    sends the geocoder request for the origin and leaves the call
    suspended on it, the message being "Finding route..."; when that
    request is answered, the request for the empty destination follows. *)
Theorem C6_v7_empty_destination_sends_requests :
  let st := V7.step (V7.with_value D "" V7.init) V7.EvFind in
  V7.requests st
    = [V7.GeocodeReq "101 Collins Street, Melbourne, Victoria, Australia"]
  /\ V7.msgBox st = V7.Text "Finding route..."
  /\ V7.pending st !! 0%nat = Some (V7.TGeoO "")
  /\ V7.requests
       (V7.step st (V7.EvComplete 0
          (GeoResult (Response true (Some [Item "Melbourne" (-38) 145])))))
     = [V7.GeocodeReq "101 Collins Street, Melbourne, Victoria, Australia";
        V7.GeocodeReq ", Australia"].
Proof.
  repeat split; reflexivity.
Qed.



(** ** Two sessions on the v6 page *)

Lemma v6_step_route st id o d r :
  V6.pending st !! id = Some (V6.TRoute o d) ->
  V6.step st (V6.EvComplete id (RouteResult r)) = V6.route_done r (V6.resumed id st).
Proof. intros H. simpl. now rewrite H. Qed.

Lemma v7_step_route st id r :
  V7.pending st !! id = Some V7.TRoute ->
  V7.step st (V7.EvComplete id (RouteResult r)) = V7.route_done r (V7.resumed id st).
Proof. intros H. simpl. now rewrite H. Qed.

(** What [render] leaves on the map for a line with at least one vertex. *)
Lemma render_surface c cs km st :
  V6.surf (V6.render (Some (c :: cs)) km st)
  = V6.Surface [Some (c :: cs)]
      (map marker_of (List.filter (is_near V6.PROX_KM (c :: cs)) (V6.EV_POINTS st)))
      (match map (fun pt => (pt_lat pt, pt_lon pt))
                 (List.filter (is_near V6.PROX_KM (c :: cs)) (V6.EV_POINTS st)) with
       | [] => None
       | l => if V6.heatPlugin st then Some l else None
       end)
      (Some (c :: cs)) (V6.Found km).
Proof.
  unfold V6.render, near_loop. rewrite near_fold. simpl.
  now destruct (map (fun pt => (pt_lat pt, pt_lon pt)) _).
Qed.

(** [render] touches the map only. *)
Lemma render_frame geo km st :
  V6.EV_POINTS (V6.render geo km st) = V6.EV_POINTS st /\
  V6.heatPlugin (V6.render geo km st) = V6.heatPlugin st /\
  V6.originVal (V6.render geo km st) = V6.originVal st /\
  V6.destVal (V6.render geo km st) = V6.destVal st /\
  V6.pending (V6.render geo km st) = V6.pending st /\
  V6.requests (V6.render geo km st) = V6.requests st.
Proof.
  unfold V6.render. destruct geo as [[|c cs]|];
    try (repeat split; reflexivity).
  destruct (near_loop V6.PROX_KM (V6.EV_POINTS st) (c :: cs)).
  repeat split; reflexivity.
Qed.







(** The text of v7 [findRoute] has no token either: on a page where
    [window.map] is bound to the map, the line of every completed route
    request would be added to the map, whatever else the page holds. *)
Lemma v7_route_drawn_when_map_bound (st : V7.page) id ok c cs dist rs :
  V7.windowMap st = true ->
  V7.pending st !! id = Some V7.TRoute ->
  let st' := V7.step st (V7.EvComplete id
    (RouteResult (Response ok
       (Some (Osrm (Some (Route (Some (c :: cs)) dist :: rs))))))) in
  V7.mapLines st' = (V7.mapLines st ++ [map V7.swap_vertex (c :: cs)])%list /\
  exists km warning, V7.msgBox st' = V7.Found km warning.
Proof.
  intros Hw Hp st'. subst st'.
  rewrite (v7_step_route _ _ _ Hp). unfold V7.route_done.
  cbn [routes geometry]. change (V7.windowMap (V7.resumed id st)) with (V7.windowMap st).
  rewrite Hw. cbn. split; [reflexivity | eauto].
Qed.



(** ** Failures of the route request *)

(** C7, as stated, fails.  On the v6 page a rejected route request (no
    status, no answer) ends in the "Route unavailable" message as well;
    on the v7 page an answer without routes ends in the message "Error
    finding route.", not in the advice to try a nearby suburb. *)
Lemma C7_counterexample_other_trigger_other_message :
  (~ claimed_unavailable NetworkError /\
   V6.msg (V6.surf (V6.step v6_waiting (V6.EvComplete 2 (RouteResult NetworkError))))
   = V6.Text "Route unavailable. Try a nearby suburb or major city.")
  /\ (claimed_unavailable (Response true (Some (Osrm (Some [])))) /\
      V7.msgBox (V7.step v7_waiting
        (V7.EvComplete 2 (RouteResult (Response true (Some (Osrm (Some [])))))))
      = V7.Text "Error finding route." /\
      V7.Text "Error finding route."
      <> V7.Text "Route unavailable. Try a nearby suburb or major city.").
Proof.
  split; [split | split; [| split]].
  - simpl. tauto.
  - reflexivity.
  - simpl. tauto.
  - reflexivity.
  - discriminate.
Qed.

(** C7, amended.  On the v6 page, when the route request of a suspended
    call is rejected, or its status is not successful, or its body does not
    parse, or [routes] is absent or empty, the call ends with the message
    "Route unavailable. Try a nearby suburb or major city." and draws
    nothing: the layers stay as they were.  When the first route has a
    line of at least one vertex the message is the "Found route" text
    instead.  On the v7 page every failure of the route stage before the
    drawing (the status apart, which is not looked at; a first route
    without geometry included) ends with "Error finding route." and leaves
    the map as it was. *)
Theorem C7_route_failure_shows_fixed_message :
  (forall (st : V6.page) id o d r,
      V6.pending st !! id = Some (V6.TRoute o d) ->
      v6_route_failed r ->
      V6.surf (V6.step st (V6.EvComplete id (RouteResult r)))
      = V6.Surface (V6.routeLayer (V6.surf st)) (V6.nearLayer (V6.surf st))
          (V6.nearHeat (V6.surf st)) (V6.mapView (V6.surf st))
          (V6.Text "Route unavailable. Try a nearby suburb or major city."))
  /\ (forall (st : V6.page) id o d c cs dist rs,
      V6.pending st !! id = Some (V6.TRoute o d) ->
      V6.msg (V6.surf (V6.step st (V6.EvComplete id
        (RouteResult (Response true
           (Some (Osrm (Some (Route (Some (c :: cs)) dist :: rs)))))))))
      = V6.Found (V6.totalKm_of (Route (Some (c :: cs)) dist)))
  /\ (forall (st : V7.page) id r,
      V7.pending st !! id = Some V7.TRoute ->
      v7_route_failed r ->
      let st' := V7.step st (V7.EvComplete id (RouteResult r)) in
      V7.msgBox st' = V7.Text "Error finding route." /\
      V7.mapLines st' = V7.mapLines st /\ V7.mapView st' = V7.mapView st).
Proof.
  split; [| split].
  - intros st id o d r Hp Hf. rewrite (v6_step_route _ _ _ _ _ Hp).
    destruct Hf as [-> | [[body ->] | [-> | [-> | ->]]]]; reflexivity.
  - intros st id o d c cs dist rs Hp. rewrite (v6_step_route _ _ _ _ _ Hp).
    change (V6.route_done _ (V6.resumed id st))
      with (V6.render (Some (c :: cs))
              (V6.totalKm_of (Route (Some (c :: cs)) dist)) (V6.resumed id st)).
    now rewrite render_surface.
  - intros st id r Hp Hf st'. subst st'. rewrite (v7_step_route _ _ _ Hp).
    destruct Hf as [-> | [[ok ->] | [[ok ->] | [[ok ->] | (ok & dist & rs & ->)]]]];
      repeat split; reflexivity.
Qed.

Lemma C7_witness_http_error :
  V6.surf (V6.step v6_waiting
             (V6.EvComplete 2 (RouteResult (Response false None))))
  = V6.Surface (V6.routeLayer (V6.surf v6_waiting))
      (V6.nearLayer (V6.surf v6_waiting)) (V6.nearHeat (V6.surf v6_waiting))
      (V6.mapView (V6.surf v6_waiting))
      (V6.Text "Route unavailable. Try a nearby suburb or major city.").
Proof.
  apply (proj1 C7_route_failure_shows_fixed_message
           v6_waiting 2%nat melbourne perth (Response false None)).
  - reflexivity.
  - right. left. exists None. reflexivity.
Defined.

(** The case that v6 [doRoute] does not catch: an answer whose first route
    has no geometry passes the [try] block; the layers are emptied, an
    empty line is added, and the call stops there, the message being left
    as it was ("Finding route..." unless something else wrote it). *)
Lemma v6_missing_geometry_not_reported (st : V6.page) id o d dist rs :
  V6.pending st !! id = Some (V6.TRoute o d) ->
  V6.surf (V6.step st (V6.EvComplete id
    (RouteResult (Response true (Some (Osrm (Some (Route None dist :: rs))))))))
  = V6.Surface [None] [] None (V6.mapView (V6.surf st)) (V6.msg (V6.surf st)).
Proof.
  intros Hp. now rewrite (v6_step_route _ _ _ _ _ Hp).
Qed.

(* ================================================================== *)
(** * Further properties of the scripts *)
(* ================================================================== *)

(** ** Distances *)

Lemma hav_a_sym lat1 lon1 lat2 lon2 :
  hav_a lat1 lon1 lat2 lon2 = hav_a lat2 lon2 lat1 lon1.
Proof.
  unfold hav_a.
  replace ((lat1 - lat2) * PI / 180 / 2) with (- ((lat2 - lat1) * PI / 180 / 2)) by lra.
  replace ((lon1 - lon2) * PI / 180 / 2) with (- ((lon2 - lon1) * PI / 180 / 2)) by lra.
  rewrite !sin_neg. ring.
Qed.

Lemma atan2_quadrant y x : 0 <= y -> 0 <= x -> 0 <= atan2 y x <= PI / 2.
Proof.
  intros Hy Hx. pose proof PI_RGT_0 as Hpi. unfold atan2.
  destruct (Rlt_dec 0 x) as [Hpos | Hn].
  - split.
    + rewrite <- atan_0. apply atan_le.
      apply Rmult_le_pos; [assumption | left; now apply Rinv_0_lt_compat].
    + pose proof (atan_bound (y / x)). lra.
  - destruct (Rlt_dec x 0); [lra |].
    destruct (Rlt_dec 0 y); [lra |].
    destruct (Rlt_dec y 0); lra.
Qed.

(** X1. [haversineKm] is symmetric in its two places, never negative and
    never more than half the circumference of the sphere. *)
Theorem X1_haversine_symmetric_and_bounded (lat1 lon1 lat2 lon2 : R) :
  haversineKm lat1 lon1 lat2 lon2 = haversineKm lat2 lon2 lat1 lon1 /\
  0 <= haversineKm lat1 lon1 lat2 lon2 <= 6371 * PI.
Proof.
  split.
  - unfold haversineKm. now rewrite hav_a_sym.
  - unfold haversineKm, EARTH_R.
    pose proof (atan2_quadrant (sqrt (hav_a lat1 lon1 lat2 lon2))
                  (sqrt (1 - hav_a lat1 lon1 lat2 lon2))
                  (sqrt_pos _) (sqrt_pos _)). lra.
Qed.

(** ** The proximity selection *)

Lemma is_near_empty thr pt : is_near thr [] pt = false.
Proof. reflexivity. Qed.

Lemma minDistKm_fin lat lon coords :
  coords <> [] -> exists m, minDistKm lat lon coords = Fin m.
Proof.
  intros Hne. pose proof (minDistKm_spec lat lon coords) as Hs.
  destruct (minDistKm lat lon coords) as [m|]; [eauto | contradiction].
Qed.

(** X2. Selection only grows with the threshold and with the vertices of
    the polyline, and the least distance does not depend on the order of
    the vertices. *)
Theorem X2_proximity_monotone_and_order_free
    (lat lon : R) (coords coords' : list vertex) (pt : point) (thr thr' : R) :
  (thr <= thr' -> is_near thr coords pt = true -> is_near thr' coords pt = true)
  /\ ((forall v, In v coords -> In v coords') ->
      is_near thr coords pt = true -> is_near thr coords' pt = true)
  /\ (Permutation coords coords' ->
      minDistKm lat lon coords = minDistKm lat lon coords').
Proof.
  split; [| split].
  - intros Hle Hn. apply is_near_iff in Hn. destruct Hn as (m & Hm & Hmt).
    apply is_near_iff. exists m. split; [assumption | lra].
  - intros Hincl Hn. apply is_near_iff in Hn.
    destruct Hn as (m & [(v & Hv & Hd) Hlow] & Hmt).
    assert (coords' <> []) as Hne.
    { intros ->. exact (Hincl v Hv). }
    destruct (minDistKm_fin (pt_lat pt) (pt_lon pt) coords' Hne) as (m' & Hm').
    pose proof (minDistKm_spec (pt_lat pt) (pt_lon pt) coords') as Hs.
    rewrite Hm' in Hs. apply is_near_iff. exists m'. split; [exact Hs |].
    destruct Hs as [_ Hlow']. specialize (Hlow' v (Hincl v Hv)). lra.
  - intros Hperm.
    pose proof (minDistKm_spec lat lon coords) as Hs.
    pose proof (minDistKm_spec lat lon coords') as Hs'.
    destruct (minDistKm lat lon coords) as [m|], (minDistKm lat lon coords') as [m'|].
    + f_equal. apply (is_min_dist_unique lat lon coords' m m'); [| exact Hs'].
      destruct Hs as [(v & Hv & Hd) Hlow]. split.
      * exists v. split; [| exact Hd]. eapply Permutation_in; eassumption.
      * intros u Hu. apply Hlow. eapply Permutation_in; [| exact Hu].
        now apply Permutation_sym.
    + subst coords'. apply Permutation_nil_r in Hperm. subst coords.
      destruct Hs as [(v & [] & _) _].
    + subst coords. apply Permutation_nil in Hperm. subst coords'.
      destruct Hs' as [(v & [] & _) _].
    + reflexivity.
Qed.

Lemma X2_witness_threshold_raised :
  is_near (one_degree_km + 1) meridian_line north_point = true.
Proof.
  apply (proj1 (X2_proximity_monotone_and_order_free
                  0 0 meridian_line meridian_line north_point
                  one_degree_km (one_degree_km + 1))).
  - lra.
  - apply is_near_iff. exists one_degree_km.
    split; [apply north_point_min_dist | lra].
Defined.

(** ** What the v6 page shows *)

Lemma same_overlay_refl st : same_overlay st st.
Proof. repeat split. Qed.

Lemma same_overlay_trans st1 st2 st3 :
  same_overlay st1 st2 -> same_overlay st2 st3 -> same_overlay st1 st3.
Proof.
  intros (A1 & A2 & A3 & A4 & A5) (B1 & B2 & B3 & B4 & B5).
  repeat split; congruence.
Qed.

Lemma same_overlay_ok st st' : same_overlay st st' -> overlay_ok st -> overlay_ok st'.
Proof.
  intros (E1 & E2 & E3 & E4 & E5) [(H1 & H2 & H3) | (geo & H1 & H2 & H3)].
  - left. repeat split; congruence.
  - right. exists geo. unfold near_chargers in *. rewrite E1, E2, E3, E4, E5. auto.
Qed.

Lemma route_begin_same o d st : same_overlay st (V6.route_begin o d st).
Proof. destruct o, d; repeat split. Qed.

Lemma dest_begin_same o destTxt st : same_overlay st (V6.dest_begin o destTxt st).
Proof.
  unfold V6.dest_begin.
  destruct (geocodeFirst_begin (V6.geoCache st) destTxt D);
    [apply route_begin_same | repeat split].
Qed.

Lemma doRoute_same st : same_overlay st (V6.doRoute st).
Proof.
  unfold V6.doRoute.
  destruct (Str.falsy _ || Str.falsy _); [repeat split |].
  destruct (geocodeFirst_begin _ _ O); [| repeat split].
  eapply same_overlay_trans; [| apply dest_begin_same]. repeat split.
Qed.

Lemma suggest_same w st : same_overlay st (V6.suggest w st).
Proof.
  unfold V6.suggest. destruct (nominatimSuggest_begin _ _ w); repeat split.
Qed.

Lemma filter_near_empty thr (pts : list point) :
  List.filter (is_near thr []) pts = [].
Proof. induction pts as [|pt pts IH]; [reflexivity | exact IH]. Qed.

Lemma render_overlay_ok geo km st :
  overlay_ok (V6.render geo km st) /\
  V6.EV_POINTS (V6.render geo km st) = V6.EV_POINTS st /\
  V6.heatPlugin (V6.render geo km st) = V6.heatPlugin st.
Proof.
  destruct (render_frame geo km st) as (Fp & Fh & _).
  split; [| split; assumption].
  right. exists geo. unfold near_chargers. rewrite Fp, Fh.
  destruct geo as [[|c cs]|].
  - simpl coords_of. rewrite filter_near_empty. now split.
  - rewrite render_surface. now split.
  - simpl coords_of. rewrite filter_near_empty. now split.
Qed.

(** Every step keeps the chargers and the heat plugin of the page, and
    leaves overlays that belong together. *)
Lemma step_overlay st e :
  overlay_ok st ->
  overlay_ok (V6.step st e) /\
  V6.EV_POINTS (V6.step st e) = V6.EV_POINTS st /\
  V6.heatPlugin (V6.step st e) = V6.heatPlugin st.
Proof.
  intros Hok.
  assert (forall st', same_overlay st st' ->
            overlay_ok st' /\ V6.EV_POINTS st' = V6.EV_POINTS st /\
            V6.heatPlugin st' = V6.heatPlugin st) as Hsame.
  { intros st' Hs. split; [now apply (same_overlay_ok st) |].
    destruct Hs as (E1 & E2 & _). now split. }
  destruct e as [w s | w | | | id r].
  - exact (Hsame (V6.with_value w s st) ltac:(repeat split)).
  - exact (Hsame _ (suggest_same w st)).
  - exact (Hsame _ (doRoute_same st)).
  - split; [left; now split | now split].
  - change (V6.step st (V6.EvComplete id r))
      with (match V6.pending st !! id with
            | Some t => if V6.deliverable t r
                        then V6.resume t r (V6.resumed id st) else st
            | None => st
            end).
    destruct (V6.pending st !! id) as [t|]; [| exact (Hsame _ (same_overlay_refl st))].
    destruct (V6.deliverable t r) eqn:Hd; [| exact (Hsame _ (same_overlay_refl st))].
    assert (same_overlay st (V6.resumed id st)) as Hres by (repeat split).
    destruct t as [w q | o' d' | o' d' | o' d'], r as [g | g];
      try discriminate Hd; unfold V6.resume.
    + apply Hsame.
      destruct (nominatimSuggest_resume _ q w g) as [items c]. repeat split.
    + apply Hsame. unfold geocodeFirst_resume.
      destruct (nominatimSuggest_resume _ o' O g) as [items c].
      eapply same_overlay_trans; [| apply dest_begin_same]. repeat split.
    + apply Hsame. unfold geocodeFirst_resume.
      destruct (nominatimSuggest_resume _ d' D g) as [items c].
      eapply same_overlay_trans; [| apply route_begin_same]. repeat split.
    + unfold V6.route_done.
      destruct g as [|[|] [[[[|route rs]|]]|]];
        try solve [apply Hsame; repeat split].
      apply (render_overlay_ok (geometry route) (V6.totalKm_of route) (V6.resumed id st)).
Qed.

(** X3. On the v6 page, whatever the user does and in whatever order the
    requests complete, the route layer holds at most one line, the
    markers are exactly those of the loaded chargers within [PROX_KM] of
    the vertices of that line, in the order of the chargers, and the heat
    layer lies on the same positions; the set of loaded chargers never
    changes. *)
Theorem X3_v6_overlays_belong_to_the_line_shown
    (points : list point) (heat : bool) (evs : list V6.event) :
  let st := V6.run (V6.init points heat) evs in
  overlay_ok st /\ V6.EV_POINTS st = points /\
  (length (V6.routeLayer (V6.surf st)) <= 1)%nat.
Proof.
  assert (forall evs st, overlay_ok st ->
            overlay_ok (V6.run st evs) /\
            V6.EV_POINTS (V6.run st evs) = V6.EV_POINTS st) as Hrun.
  { clear evs. induction evs as [|e evs IH]; intros st Hok; [now split |].
    destruct (step_overlay st e Hok) as (Hok' & Hp & _).
    destruct (IH (V6.step st e) Hok') as (Hok'' & Hp'').
    split; [exact Hok'' | now rewrite <- Hp]. }
  destruct (Hrun evs (V6.init points heat)) as (Hok & Hp).
  { left. now split. }
  split; [exact Hok |]. split; [exact Hp |].
  destruct Hok as [(-> & _) | (geo & -> & _)]; simpl; lia.
Qed.

(** ** What the v7 page shows *)

Lemma v7_step_lines st e :
  V7.mapLines (V7.step st e) = V7.mapLines st \/
  exists l, V7.mapLines (V7.step st e) = (V7.mapLines st ++ [l])%list.
Proof.
  destruct e as [w s | | id r]; simpl; try (now left).
  destruct (V7.pending st !! id) as [t|]; [| now left].
  destruct (V7.deliverable t r) eqn:Hd; [| now left].
  destruct t as [dest | o |], r as [g | g]; try discriminate Hd; simpl.
  - destruct (V7.geo_resume g); now left.
  - destruct (V7.geo_resume g); now left.
  - unfold V7.route_done.
    destruct g as [|ok [[[[|route rs]|]]|]]; try (now left).
    cbn [routes]. destruct (geometry route) as [cs|]; [| now left].
    change (V7.windowMap (V7.resumed id st)) with (V7.windowMap st).
    destruct (V7.windowMap st); [| now left].
    right. exists (map V7.swap_vertex cs).
    now destruct (map V7.swap_vertex cs).
Qed.

(** X4. The v7 page never removes a line from the map: after any events
    the lines drawn before are still there, in their order, followed by
    the lines drawn since (at most one for each event). *)
Theorem X4_v7_lines_only_accumulate (st : V7.page) (evs : list V7.event) :
  exists more,
    V7.mapLines (V7.run st evs) = (V7.mapLines st ++ more)%list /\
    (length more <= length evs)%nat.
Proof.
  revert st. induction evs as [|e evs IH]; intros st.
  - exists []. split; [now rewrite app_nil_r | simpl; lia].
  - destruct (IH (V7.step st e)) as (more & Hm & Hl).
    change (V7.run st (e :: evs)) with (V7.run (V7.step st e) evs).
    destruct (v7_step_lines st e) as [E | (l & E)]; rewrite E in Hm.
    + exists more. split; [exact Hm | simpl; lia].
    + exists (l :: more). split; [now rewrite Hm, <- List.app_assoc | simpl; lia].
Qed.

(** ** Trimming and the cache key *)

Lemma ltrim_shape s :
  Str.ltrim s = EmptyString \/
  exists c r, Str.ltrim s = String c r /\ Ascii.is_space c = false.
Proof.
  induction s as [|c s IH]; simpl; [now left |].
  destruct (Ascii.is_space c) eqn:Hc; [exact IH | right; eauto].
Qed.

Lemma rtrim_cons c r :
  Ascii.is_space c = false -> Str.rtrim (String c r) = String c (Str.rtrim r).
Proof. intros Hc. simpl. rewrite Hc. now destruct (Str.rtrim r). Qed.

Lemma rtrim_idem s : Str.rtrim (Str.rtrim s) = Str.rtrim s.
Proof.
  induction s as [|c s IH]; [reflexivity |]. simpl.
  destruct (Str.rtrim s) as [|d r] eqn:Hr.
  - destruct (Ascii.is_space c) eqn:Hc; [reflexivity |]. simpl. now rewrite Hc.
  - change (Str.rtrim (String c (String d r)))
      with (match Str.rtrim (String d r) with
            | EmptyString => if Ascii.is_space c then EmptyString
                             else String c EmptyString
            | r' => String c r'
            end).
    now rewrite IH.
Qed.

Lemma ltrim_trim q : Str.ltrim (Str.trim q) = Str.trim q.
Proof.
  unfold Str.trim. destruct (ltrim_shape q) as [-> | (c & r & -> & Hc)];
    [reflexivity |].
  rewrite (rtrim_cons c r Hc). simpl. now rewrite Hc.
Qed.

Lemma trim_idem q : Str.trim (Str.trim q) = Str.trim q.
Proof.
  unfold Str.trim at 1. rewrite ltrim_trim. unfold Str.trim. apply rtrim_idem.
Qed.

Lemma cache_key_trim w q : cache_key w (Str.trim q) = cache_key w q.
Proof. unfold cache_key. now rewrite trim_idem. Qed.

(** X8. Trimming is idempotent and leaves no white space at either end, so
    the cache key of a text does not depend on the white space around it:
    the key that Find Route computes from a trimmed field is the key under
    which the suggestions for the raw text were stored. *)
Theorem X8_trim_idempotent_and_key_stable (w : which) (q : string) :
  Str.trim (Str.trim q) = Str.trim q /\
  Str.ltrim (Str.trim q) = Str.trim q /\
  Str.rtrim (Str.trim q) = Str.trim q /\
  cache_key w (Str.trim q) = cache_key w q.
Proof.
  split; [apply trim_idem |]. split; [apply ltrim_trim |].
  split; [unfold Str.trim; apply rtrim_idem | apply cache_key_trim].
Qed.

(** ** Find Route and the cache *)

Lemma falsy_false s : s <> EmptyString -> Str.falsy s = false.
Proof. now destruct s. Qed.

Lemma geocodeFirst_cached geoCache lbl w items :
  geoCache !! cache_key w lbl = Some items ->
  geocodeFirst_begin geoCache (Str.trim lbl) w = FirstIs (head items).
Proof.
  intros Hc. unfold geocodeFirst_begin. now rewrite cache_key_trim, Hc.
Qed.

(** X5. When the cache holds candidates for both fields (under the keys of
    the texts as typed), Find Route sends no geocoder request: it sends
    exactly one request, the route from the first candidate of the origin
    to the first candidate of the destination, and waits for it. *)
Theorem X5_find_route_reuses_cached_places
    (st : V6.page) (o d : candidate) (os ds : list candidate) :
  Str.trim (V6.originVal st) <> EmptyString ->
  Str.trim (V6.destVal st) <> EmptyString ->
  V6.geoCache st !! cache_key O (V6.originVal st) = Some (o :: os) ->
  V6.geoCache st !! cache_key D (V6.destVal st) = Some (d :: ds) ->
  let st' := V6.step st V6.EvFind in
  V6.requests st' = (V6.requests st ++ [V6.RouteReq o d])%list /\
  V6.pending st' = <[V6.nextId st := V6.TRoute o d]> (V6.pending st) /\
  V6.msg (V6.surf st') = V6.Text "Finding route..." /\
  V6.geoCache st' = V6.geoCache st.
Proof.
  intros Ho Hd Hco Hcd st'. subst st'. simpl. unfold V6.doRoute.
  change (V6.originVal (V6.with_msg _ st)) with (V6.originVal st).
  change (V6.destVal (V6.with_msg _ st)) with (V6.destVal st).
  change (V6.geoCache (V6.with_msg _ st)) with (V6.geoCache st).
  rewrite (falsy_false _ Ho), (falsy_false _ Hd). simpl orb. cbv iota.
  rewrite (geocodeFirst_cached _ _ _ _ Hco). unfold V6.dest_begin.
  change (V6.geoCache (V6.with_msg _ st)) with (V6.geoCache st).
  rewrite (geocodeFirst_cached _ _ _ _ Hcd). repeat split.
Qed.

Lemma X5_witness_both_cached :
  let st := V6.with_value O "Melbourne" (V6.run page0 session1) in
  V6.requests (V6.step st V6.EvFind)
  = (V6.requests st ++ [V6.RouteReq melbourne perth])%list /\
  V6.pending (V6.step st V6.EvFind)
  = <[V6.nextId st := V6.TRoute melbourne perth]> (V6.pending st) /\
  V6.msg (V6.surf (V6.step st V6.EvFind)) = V6.Text "Finding route..." /\
  V6.geoCache (V6.step st V6.EvFind) = V6.geoCache st.
Proof.
  intros st.
  apply (X5_find_route_reuses_cached_places st melbourne perth [] []).
  - discriminate.
  - discriminate.
  - reflexivity.
  - reflexivity.
Defined.

(** X6. An answer of the geocoder without results is a successful answer:
    the empty sequence is stored under the key.  The next lookup for the
    same direction and text is answered with the empty sequence from the
    cache, and [geocodeFirst] finds no place, both without a request
    (unlike after a failed request, which is retried). *)
Theorem X6_empty_answer_is_cached
    (net net' : string -> fetched (list nominatim_item))
    (geoCache : gmap string (list candidate)) (q : string) (w : which) :
  (3 <= String.length q)%nat ->
  geoCache !! cache_key w q = None ->
  net q = Response true (Some []) ->
  let cache' := <[cache_key w q := []]> geoCache in
  nominatimSuggest net geoCache q w = ([], cache', [q]) /\
  nominatimSuggest net' cache' q w = ([], cache', []) /\
  geocodeFirst_begin cache' (Str.trim q) w = FirstIs None.
Proof.
  intros Hlen Hmiss Hnet cache'. unfold nominatimSuggest.
  rewrite !begin_long by assumption. rewrite Hmiss, Hnet.
  unfold cache'. rewrite lookup_insert_eq. repeat split.
  apply (geocodeFirst_cached _ q w []). apply lookup_insert_eq.
Qed.

Lemma X6_witness_no_results :
  let net := fun _ : string => @Response (list nominatim_item) true (Some []) in
  let cache' := <[cache_key O "Atlantis" := []]> (∅ : gmap string (list candidate)) in
  nominatimSuggest net ∅ "Atlantis" O = ([], cache', ["Atlantis"%string]) /\
  nominatimSuggest net cache' "Atlantis" O = ([], cache', []) /\
  geocodeFirst_begin cache' (Str.trim "Atlantis") O = FirstIs None.
Proof.
  intros net cache'.
  apply (X6_empty_answer_is_cached net net ∅ "Atlantis" O).
  - simpl. lia.
  - reflexivity.
  - reflexivity.
Defined.

Lemma geocodeFirst_awaits geoCache lbl w q :
  geocodeFirst_begin geoCache lbl w = FirstAwaits q -> q = lbl.
Proof.
  unfold geocodeFirst_begin, nominatimSuggest_begin.
  destruct (geoCache !! cache_key w lbl); [discriminate |].
  destruct (Str.falsy lbl || (String.length lbl <? 3)%nat); [discriminate |].
  congruence.
Qed.

(** X7. A trimmed origin of one or two characters that is not in the cache
    is never sent to the geocoder and counts as not found.  Find Route
    still resolves the destination (from the cache, or with one geocoder
    request); whatever the destination resolves to, the call ends with
    the message "Could not find one or both places. Try being more
    specific." and no route request is sent. *)
Theorem X7_short_origin_is_never_found (st : V6.page) :
  Str.trim (V6.originVal st) <> EmptyString ->
  Str.trim (V6.destVal st) <> EmptyString ->
  (String.length (Str.trim (V6.originVal st)) < 3)%nat ->
  V6.geoCache st !! cache_key O (V6.originVal st) = None ->
  let st' := V6.step st V6.EvFind in
  (V6.msg (V6.surf st') = MSG_NOT_FOUND /\ V6.requests st' = V6.requests st /\
   V6.pending st' = V6.pending st)
  \/ (V6.requests st'
      = (V6.requests st ++ [V6.GeocodeReq (Str.trim (V6.destVal st))])%list /\
      forall g,
        let st'' := V6.step st' (V6.EvComplete (V6.nextId st) (GeoResult g)) in
        V6.msg (V6.surf st'') = MSG_NOT_FOUND /\
        V6.requests st'' = V6.requests st').
Proof.
  intros Ho Hd Hshort Hmiss st'. subst st'. simpl. unfold V6.doRoute.
  change (V6.originVal (V6.with_msg _ st)) with (V6.originVal st).
  change (V6.destVal (V6.with_msg _ st)) with (V6.destVal st).
  change (V6.geoCache (V6.with_msg _ st)) with (V6.geoCache st).
  rewrite (falsy_false _ Ho), (falsy_false _ Hd). simpl orb. cbv iota.
  assert (geocodeFirst_begin (V6.geoCache st) (Str.trim (V6.originVal st)) O
          = FirstIs None) as ->.
  { unfold geocodeFirst_begin. rewrite cache_key_trim, Hmiss.
    now rewrite begin_short. }
  unfold V6.dest_begin.
  change (V6.geoCache (V6.with_msg _ st)) with (V6.geoCache st).
  destruct (geocodeFirst_begin (V6.geoCache st) (Str.trim (V6.destVal st)) D)
    as [d | q] eqn:Hg.
  - left. destruct d; repeat split.
  - right. apply geocodeFirst_awaits in Hg. subst q. split; [reflexivity |].
    intros g. simpl. rewrite lookup_insert_eq. simpl.
    unfold geocodeFirst_resume.
    destruct (nominatimSuggest_resume _ _ D g) as [items c].
    destruct (head items); split; reflexivity.
Qed.

Lemma X7_witness_two_letters :
  let st := V6.with_value D "Perth" (V6.with_value O "WA" page0) in
  let st' := V6.step st V6.EvFind in
  (V6.msg (V6.surf st') = MSG_NOT_FOUND /\ V6.requests st' = V6.requests st /\
   V6.pending st' = V6.pending st)
  \/ (V6.requests st'
      = (V6.requests st ++ [V6.GeocodeReq (Str.trim (V6.destVal st))])%list /\
      forall g,
        let st'' := V6.step st' (V6.EvComplete (V6.nextId st) (GeoResult g)) in
        V6.msg (V6.surf st'') = MSG_NOT_FOUND /\
        V6.requests st'' = V6.requests st').
Proof.
  intros st.
  apply (X7_short_origin_is_never_found st).
  - discriminate.
  - discriminate.
  - simpl. lia.
  - reflexivity.
Defined.

(** ** Suggestions *)

(** X9. Typing and suggesting never touch the map or the message.  When
    the debounce timer of a field fires, and when the request it started
    completes, the list of that field is replaced (not extended) by the
    labels of the candidates returned, in their order, so a failed
    request or a text shorter than 3 characters leaves it empty; the list
    of the other field stays as it was. *)
Theorem X9_suggestions_replace_one_list_only (st : V6.page) (w : which) :
  (forall s, V6.surf (V6.step st (V6.EvInput w s)) = V6.surf st)
  /\ (let st' := V6.step st (V6.EvSuggest w) in
      V6.surf st' = V6.surf st /\ list_of (other w) st' = list_of (other w) st /\
      match nominatimSuggest_begin (V6.geoCache st)
              (match w with O => V6.originVal st | D => V6.destVal st end) w with
      | Returns items => list_of w st' = map label items /\
                         V6.requests st' = V6.requests st
      | Awaits q => list_of w st' = list_of w st /\
                    V6.requests st' = (V6.requests st ++ [V6.GeocodeReq q])%list
      end)
  /\ (forall id q g,
      V6.pending st !! id = Some (V6.TSuggest w q) ->
      let st' := V6.step st (V6.EvComplete id (GeoResult g)) in
      V6.surf st' = V6.surf st /\ list_of (other w) st' = list_of (other w) st /\
      list_of w st'
      = map label (fst (nominatimSuggest_resume (V6.geoCache st) q w g)) /\
      V6.requests st' = V6.requests st).
Proof.
  split; [| split].
  - intros s. reflexivity.
  - simpl. unfold V6.suggest.
    destruct (nominatimSuggest_begin _ _ w) as [items | q];
      destruct w; repeat split.
  - intros id q g Hp st'. subst st'. simpl. rewrite Hp. simpl.
    destruct (nominatimSuggest_resume (V6.geoCache st) q w g) as [items c].
    destruct w; repeat split.
Qed.

Lemma X9_witness_failed_suggestion :
  let st := V6.step (V6.with_value O "Melb" page0) (V6.EvSuggest O) in
  let st' := V6.step st (V6.EvComplete 0 (GeoResult NetworkError)) in
  V6.surf st' = V6.surf st /\ list_of D st' = list_of D st /\
  list_of O st' = [] /\ V6.requests st' = V6.requests st.
Proof.
  intros st.
  apply (proj2 (proj2 (X9_suggestions_replace_one_list_only st O))
           0%nat "Melb"%string NetworkError).
  reflexivity.
Defined.

(** ** The debounced input handlers *)

Section Timers.

Local Open Scope nat_scope.

Lemma debounce_run_app {A} ms (t : Debounce.timer A) evs1 evs2 :
  Debounce.run ms t (evs1 ++ evs2) =
  (fst (Debounce.run ms (fst (Debounce.run ms t evs1)) evs2),
   snd (Debounce.run ms t evs1)
   ++ snd (Debounce.run ms (fst (Debounce.run ms t evs1)) evs2)).
Proof.
  revert t. induction evs1 as [|e evs1 IH]; intros t; simpl.
  - now destruct (Debounce.run ms t evs2).
  - destruct (Debounce.step ms t e) as [t1 fired].
    rewrite IH. destruct (Debounce.run ms t1 evs1) as [t2 rest]. simpl.
    now destruct fired.
Qed.

(** Calls alone never run [fn]. *)
Lemma debounce_calls_only {A} ms (t : Debounce.timer A) (cs : list (nat * A)) :
  snd (Debounce.run ms t (map (fun c => Debounce.Call (fst c) (snd c)) cs)) = [].
Proof.
  revert t. induction cs as [|c cs IH]; intros t; simpl; [reflexivity |].
  specialize (IH (Some (fst c + ms, snd c))).
  now destruct (Debounce.run ms (Some (fst c + ms, snd c)) _).
Qed.

(** X10. The debounce is trailing edge.  After any history, a call at time
    [n] followed by the next run of the timers at time [T]: [fn] runs then
    exactly when [ms] milliseconds have passed since the call, with the
    arguments of that call, and the timer set before the call never runs.
    So a burst of calls, whatever their times, makes [fn] run once, with
    the arguments of the last call, and a second run of the timers after
    that runs nothing. *)
Theorem X10_debounce_runs_last_call_once
    {A : Type} (ms : nat) (t : Debounce.timer A) :
  (forall evs n a T,
      Debounce.run ms t (evs ++ [Debounce.Call n a; Debounce.Timeout T])
      = if n + ms <=? T
        then (None, snd (Debounce.run ms t evs) ++ [a])
        else (Some (n + ms, a), snd (Debounce.run ms t evs)))
  /\ (forall (cs : list (nat * A)) n a T T',
      n + ms <= T ->
      Debounce.run ms t
        (map (fun c => Debounce.Call (fst c) (snd c)) cs
         ++ [Debounce.Call n a; Debounce.Timeout T; Debounce.Timeout T'])
      = (None, [a])).
Proof.
  split.
  - intros evs n a T. rewrite debounce_run_app. simpl.
    destruct (n + ms <=? T); simpl; [reflexivity | now rewrite app_nil_r].
  - intros cs n a T T' HT. rewrite debounce_run_app, debounce_calls_only. simpl.
    apply Nat.leb_le in HT. now rewrite HT.
Qed.

Lemma X10_witness_three_keystrokes :
  Debounce.run 250 None
    (map (fun c => Debounce.Call (fst c) (snd c)) [(0, "P"); (100, "Pe")]
     ++ [Debounce.Call 300 "Per"; Debounce.Timeout 550; Debounce.Timeout 800])
  = (None, ["Per"]).
Proof.
  apply (proj2 (X10_debounce_runs_last_call_once 250 None)
           [(0, "P"); (100, "Pe")] 300 "Per" 550 800).
  lia.
Defined.

(** ** Waiting for the map *)

Lemma polls_stopped p founds :
  MapReady.running p = false -> MapReady.polls p founds = p.
Proof.
  intros Hr. induction founds as [|f founds IH]; [reflexivity |].
  change (MapReady.polls p (f :: founds))
    with (MapReady.polls (MapReady.poll p f) founds).
  unfold MapReady.poll. now rewrite Hr.
Qed.

Lemma polls_failed k : forall n c,
  (n + k <= 60)%nat ->
  MapReady.polls (MapReady.Poller n true c false) (repeat false k)
  = MapReady.Poller (n + k) true c false.
Proof.
  induction k as [|k IH]; intros n c Hk.
  - simpl. now rewrite Nat.add_0_r.
  - change (MapReady.polls (MapReady.Poller n true c false) (repeat false (S k)))
      with (MapReady.polls
              (MapReady.poll (MapReady.Poller n true c false) false)
              (repeat false k)).
    unfold MapReady.poll. cbn [MapReady.running MapReady.tries
                                 MapReady.called MapReady.gaveUp].
    assert ((60 <? S n) = false) as -> by (apply Nat.ltb_ge; lia).
    rewrite IH by lia. f_equal. lia.
Qed.

Lemma polls_app p l1 l2 :
  MapReady.polls p (l1 ++ l2) = MapReady.polls (MapReady.polls p l1) l2.
Proof. unfold MapReady.polls. apply fold_left_app. Qed.

(** X11. [whenMapReady] calls [cb] at most once.  If the map is found at a
    poll that follows at most 60 failed ones, [cb] is called at that poll,
    once, and the message is not shown.  The 61st failed poll in a row
    shows the message and stops the interval: from then on [cb] is never
    called, even if the map appears. *)
Theorem X11_map_poller_gives_up_at_61st_failure (k : nat) (later : list bool) :
  (k <= 60 ->
   MapReady.polls MapReady.start (repeat false k ++ true :: later)
   = MapReady.Poller k false 1 false)
  /\ MapReady.polls MapReady.start (repeat false 60 ++ false :: later)
     = MapReady.Poller 61 false 0 true.
Proof.
  split.
  - intros Hk. rewrite polls_app. unfold MapReady.start.
    rewrite (polls_failed k 0 0) by lia.
    change (MapReady.polls (MapReady.Poller (0 + k) true 0 false) (true :: later))
      with (MapReady.polls (MapReady.Poller (0 + k) false 1 false) later).
    now apply polls_stopped.
  - rewrite polls_app. unfold MapReady.start.
    rewrite (polls_failed 60 0 0) by lia.
    change (MapReady.polls (MapReady.Poller (0 + 60) true 0 false) (false :: later))
      with (MapReady.polls (MapReady.Poller 61 false 0 true) later).
    now apply polls_stopped.
Qed.

Lemma X11_witness_found_at_third_poll :
  MapReady.polls MapReady.start (repeat false 2 ++ true :: [false; true])
  = MapReady.Poller 2 false 1 false.
Proof.
  apply (proj1 (X11_map_poller_gives_up_at_61st_failure 2 [false; true])).
  lia.
Defined.

End Timers.

(** ** The classifiers of the Python side *)

Lemma lower_upper_char c : Str.lower (Py.upper_char c) = Str.lower c.
Proof. destruct c as [[] [] [] [] [] [] [] []]; reflexivity. Qed.

Lemma upper_upper_char c : Py.upper_char (Py.upper_char c) = Py.upper_char c.
Proof. destruct c as [[] [] [] [] [] [] [] []]; reflexivity. Qed.

Lemma is_space_upper_char c : Py.is_space (Py.upper_char c) = Py.is_space c.
Proof. destruct c as [[] [] [] [] [] [] [] []]; reflexivity. Qed.

Lemma upper_char_no_lower c :
  negb ((97 <=? nat_of_ascii (Py.upper_char c))%nat
        && (nat_of_ascii (Py.upper_char c) <=? 122)%nat) = true.
Proof. destruct c as [[] [] [] [] [] [] [] []]; reflexivity. Qed.

Lemma lower_upper s : Py.lower (Py.upper s) = Py.lower s.
Proof.
  unfold Py.lower, Py.upper. induction s as [|c s IH]; [reflexivity |].
  cbn [Py.map_string]. now rewrite lower_upper_char, IH.
Qed.

Lemma upper_upper s : Py.upper (Py.upper s) = Py.upper s.
Proof.
  unfold Py.upper. induction s as [|c s IH]; [reflexivity |].
  cbn [Py.map_string]. now rewrite upper_upper_char, IH.
Qed.

Lemma upper_length s : String.length (Py.upper s) = String.length s.
Proof.
  unfold Py.upper. induction s as [|c s IH]; [reflexivity |].
  cbn [Py.map_string String.length]. now rewrite IH.
Qed.

Lemma upper_no_lower s : no_lower (Py.upper s) = true.
Proof.
  unfold Py.upper. induction s as [|c s IH]; [reflexivity |].
  cbn [Py.map_string no_lower]. now rewrite upper_char_no_lower, IH.
Qed.

Lemma prefix_app_contains p1 p2 : forall s,
  String.prefix (p1 ++ p2) s = true -> Py.contains p2 s = true.
Proof.
  induction p1 as [|a p1 IH]; intros s H.
  - change (String.prefix p2 s = true) in H.
    destruct s; cbn [Py.contains]; now rewrite H.
  - change (String.prefix (String a (p1 ++ p2)) s = true) in H.
    destruct s as [|b s]; [discriminate |]. cbn [String.prefix] in H.
    destruct (ascii_dec a b); [| discriminate].
    cbn [Py.contains]. rewrite (IH s H). apply orb_true_r.
Qed.

(** A text that contains [p1 ++ p2] contains [p2]. *)
Lemma contains_app p1 p2 s :
  Py.contains (p1 ++ p2) s = true -> Py.contains p2 s = true.
Proof.
  induction s as [|c s IH]; cbn [Py.contains]; intros H.
  - rewrite orb_false_r in H. apply prefix_app_contains in H.
    exact H.
  - apply orb_true_iff in H. destruct H as [H | H].
    + exact (prefix_app_contains p1 p2 (String c s) H).
    + rewrite (IH H). apply orb_true_r.
Qed.

Lemma classify_status_cons a t :
  Py.classify_status_simple (Some (String a t))
  = status_of_lower (Py.lower (String a t)).
Proof. reflexivity. Qed.

Lemma classify_usage_cons a t :
  Py.classify_usage_simple (Some (String a t))
  = usage_of_lower (Py.lower (String a t)).
Proof. reflexivity. Qed.

(** X13. [classify_status_simple] returns one of its four classes and
    ignores the case of the letters.  Its first test wins: every status
    that contains "operational" is operational, "Not Operational"
    included (the later test for "not operational" never decides), and
    such a site is drawn in the colour of the operational ones. *)
Theorem X13_status_class_first_test_wins (s : string) :
  In (Py.classify_status_simple (Some s))
     ["operational"; "partial"; "down"; "unknown"]%string
  /\ Py.classify_status_simple (Some (Py.upper s))
     = Py.classify_status_simple (Some s)
  /\ (Py.contains "not operational" (Py.lower s) = true ->
      Py.classify_status_simple (Some s) = "operational"%string /\
      Py.status_color (Some (Py.classify_status_simple (Some s)))
      = "#16a34a"%string).
Proof.
  split; [| split].
  - destruct s as [|a t]; [simpl; tauto |].
    rewrite classify_status_cons. unfold status_of_lower.
    repeat match goal with |- context [if ?b then _ else _] => destruct b end;
      simpl; tauto.
  - destruct s as [|a t]; [reflexivity |].
    change (Py.upper (String a t))
      with (String (Py.upper_char a) (Py.upper t)).
    rewrite !classify_status_cons.
    change (String (Py.upper_char a) (Py.upper t)) with (Py.upper (String a t)).
    now rewrite lower_upper.
  - intros Hc. destruct s as [|a t]; [discriminate |].
    rewrite classify_status_cons. unfold status_of_lower.
    rewrite (contains_app "not " "operational" _ Hc). now split.
Qed.

Lemma X13_witness_not_operational :
  Py.classify_status_simple (Some "Not Operational") = "operational"%string /\
  Py.status_color (Some (Py.classify_status_simple (Some "Not Operational")))
  = "#16a34a"%string.
Proof.
  apply (proj2 (proj2 (X13_status_class_first_test_wins "Not Operational"))).
  reflexivity.
Defined.

(** X14. [classify_usage_simple] returns one of its three classes and
    ignores the case of the letters; a usage that mentions "public" is
    public whatever else it mentions ("private" and "restricted"
    included). *)
Theorem X14_usage_class_public_wins (s : string) :
  In (Py.classify_usage_simple (Some s)) ["public"; "private"; "unknown"]%string
  /\ Py.classify_usage_simple (Some (Py.upper s))
     = Py.classify_usage_simple (Some s)
  /\ (Py.contains "public" (Py.lower s) = true ->
      Py.classify_usage_simple (Some s) = "public"%string).
Proof.
  split; [| split].
  - destruct s as [|a t]; [simpl; tauto |].
    rewrite classify_usage_cons. unfold usage_of_lower.
    repeat match goal with |- context [if ?b then _ else _] => destruct b end;
      simpl; tauto.
  - destruct s as [|a t]; [reflexivity |].
    change (Py.upper (String a t))
      with (String (Py.upper_char a) (Py.upper t)).
    rewrite !classify_usage_cons.
    change (String (Py.upper_char a) (Py.upper t)) with (Py.upper (String a t)).
    now rewrite lower_upper.
  - intros Hc. destruct s as [|a t]; [discriminate |].
    rewrite classify_usage_cons. unfold usage_of_lower. now rewrite Hc.
Qed.

Lemma X14_witness_public_restricted :
  Py.classify_usage_simple (Some "Public - Restricted Hours") = "public"%string.
Proof.
  apply (proj2 (proj2 (X14_usage_class_public_wins "Public - Restricted Hours"))).
  reflexivity.
Defined.

(** ** State abbreviations *)

Lemma lstrip_upper s : Py.lstrip (Py.upper s) = Py.upper (Py.lstrip s).
Proof.
  unfold Py.upper. induction s as [|c s IH]; [reflexivity |].
  cbn [Py.map_string Py.lstrip]. rewrite is_space_upper_char.
  destruct (Py.is_space c); [exact IH | reflexivity].
Qed.

Lemma rstrip_upper s : Py.rstrip (Py.upper s) = Py.upper (Py.rstrip s).
Proof.
  unfold Py.upper. induction s as [|c s IH]; [reflexivity |].
  cbn [Py.map_string Py.rstrip]. rewrite IH, is_space_upper_char.
  destruct (Py.rstrip s); [| reflexivity].
  cbn [Py.map_string]. now destruct (Py.is_space c).
Qed.

Lemma strip_upper s : Py.strip (Py.upper s) = Py.upper (Py.strip s).
Proof. unfold Py.strip. now rewrite lstrip_upper, rstrip_upper. Qed.

(** Every abbreviation of [STATE_MAP] is short, in upper case, and is
    mapped to itself. *)
Lemma state_map_values :
  map_Forall (fun _ abbr =>
    (String.length abbr <= 4)%nat /\ no_lower abbr = true /\
    Py.normalise_state (Some abbr) = abbr) Py.STATE_MAP.
Proof.
  unfold Py.STATE_MAP. cbn [list_to_map foldr fst snd].
  repeat (apply map_Forall_insert_2;
          [split; [simpl; lia | split; vm_compute; reflexivity] |]).
  apply map_Forall_empty.
Qed.

(** X15. [normalise_state] returns a code of at most four characters
    without lower-case letters (one of the abbreviations, [UNK], or the
    text itself in upper case), and it maps every code it returns to
    itself. *)
Theorem X15_state_codes_short_upper_and_stable (s : option string) :
  (String.length (Py.normalise_state s) <= 4)%nat /\
  no_lower (Py.normalise_state s) = true /\
  Py.normalise_state (Some (Py.normalise_state s)) = Py.normalise_state s.
Proof.
  assert ((String.length "UNK" <= 4)%nat /\ no_lower "UNK" = true /\
          Py.normalise_state (Some "UNK"%string) = "UNK"%string) as Hunk
    by (split; [simpl; lia | split; vm_compute; reflexivity]).
  destruct s as [[|a t]|]; [exact Hunk | | exact Hunk].
  assert (Py.normalise_state (Some (String a t))
          = match Py.STATE_MAP !! Py.lower (Py.strip (String a t)) with
            | Some abbr => abbr
            | None => if (String.length (String a t) <=? 4)%nat
                      then Py.upper (String a t) else "UNK"%string
            end) as -> by reflexivity.
  destruct (Py.STATE_MAP !! Py.lower (Py.strip (String a t))) as [abbr|] eqn:Hm.
  - exact (map_Forall_lookup_1 _ _ _ _ state_map_values Hm).
  - destruct (String.length (String a t) <=? 4)%nat eqn:Hlen; [| exact Hunk].
    split; [rewrite upper_length; now apply Nat.leb_le |].
    split; [apply upper_no_lower |].
    change (Py.upper (String a t))
      with (String (Py.upper_char a) (Py.upper t)) at 1.
    unfold Py.normalise_state.
    change (String (Py.upper_char a) (Py.upper t)) with (Py.upper (String a t)).
    rewrite strip_upper, lower_upper, Hm, upper_length, Hlen. apply upper_upper.
Qed.

(** ** The table of charging sites *)

Lemma conn_loop_fold (conns : list (option Py.connection))
    (mp : option R) (tq : Z) (ti : gset string) :
  exists mp' ti',
    fold_left Py.conn_step conns (mp, tq, ti)
      = (mp', (tq + total_ports conns)%Z, ti') /\
    (forall t, t ∈ ti' <-> t ∈ ti \/ has_title conns t) /\
    match mp' with
    | None => mp = None /\ usable_powers conns = []
    | Some m => (mp = Some m \/ In m (usable_powers conns)) /\
                Forall (fun x => x <= m) (usable_powers conns) /\
                (forall m0, mp = Some m0 -> m0 <= m)
    end.
Proof.
  revert mp tq ti.
  induction conns as [|c conns IH]; intros mp tq ti.
  - exists mp, ti. cbn [fold_left total_ports map foldr].
    split; [f_equal; f_equal; lia |].
    split.
    + intros t. split; [now left |].
      intros [H | [_ [c [[] _]]]]. exact H.
    + destruct mp as [m|]; [| now split].
      split; [now left |]. split; [constructor |].
      intros m0 [= ->]. lra.
  - cbn [fold_left].
    destruct c as [c|].
    + unfold Py.conn_step at 2. cbn iota beta.
      set (mp1 := match Py.power_of c with
                  | Py.Val pwf => _
                  | _ => mp
                  end).
      set (tq1 := (tq + _)%Z).
      set (ti1 := match Py.TypeTitle c with
                  | Some (String a t) => _
                  | _ => ti
                  end).
      destruct (IH mp1 tq1 ti1) as (mp' & ti' & Hf & Ht & Hm).
      exists mp', ti'. split; [| split].
      * rewrite Hf. f_equal. f_equal. subst tq1.
        cbn [total_ports map foldr ports]. fold (total_ports conns). lia.
      * intros t. rewrite Ht. subst ti1. unfold has_title.
        split.
        -- intros [H | (Hne & c' & Hin & Hc')].
           ++ destruct (Py.TypeTitle c) as [[|a s]|] eqn:Hc; try (now left).
              apply elem_of_union in H as [H | H]; [| now left].
              apply elem_of_singleton in H. subst t. right.
              split; [discriminate |]. exists c. split; [now left | exact Hc].
           ++ right. split; [exact Hne |]. exists c'. split; [now right | exact Hc'].
        -- intros [H | (Hne & c' & [Hin | Hin] & Hc')].
           ++ left. destruct (Py.TypeTitle c) as [[|a s]|]; try exact H.
              apply elem_of_union. now right.
           ++ injection Hin as ->. left. rewrite Hc'.
              destruct t as [|a s]; [congruence |].
              apply elem_of_union. left. now apply elem_of_singleton.
           ++ right. split; [exact Hne |]. now exists c'.
      * unfold usable_powers. cbn [omap list_omap usable_power mbind option_bind].
        fold (usable_powers conns). subst mp1.
        destruct (Py.power_of c) as [| |pwf|]; cbn [Py.to_numeric]; try exact Hm.
        destruct mp' as [m|].
        -- destruct Hm as (Hin & Hall & Hge).
           destruct mp as [m0|].
           ++ destruct (bool_decide (pwf > m0)) eqn:Hd.
              ** apply bool_decide_eq_true in Hd.
                 split; [| split].
                 --- right. destruct Hin as [[= ->] | Hin]; [now left | now right].
                 --- constructor; [| exact Hall].
                     specialize (Hge _ eq_refl). lra.
                 --- intros ? [= <-]. specialize (Hge _ eq_refl). lra.
              ** apply bool_decide_eq_false in Hd.
                 split; [| split].
                 --- destruct Hin as [Hin | Hin]; [now left | right; now right].
                 --- constructor; [| exact Hall].
                     specialize (Hge _ eq_refl). lra.
                 --- exact Hge.
           ++ split; [| split].
              ** right. destruct Hin as [[= ->] | Hin]; [now left | now right].
              ** constructor; [| exact Hall]. specialize (Hge _ eq_refl). lra.
              ** discriminate.
        -- destruct Hm as [Hm _]. destruct mp as [m0|];
             [destruct (bool_decide (pwf > m0)) |]; discriminate.
    + destruct (IH mp tq ti) as (mp' & ti' & Hf & Ht & Hm).
      exists mp', ti'. split; [| split].
      * cbn [Py.conn_step]. rewrite Hf. reflexivity.
      * intros t. rewrite Ht. unfold has_title. split.
        -- intros [H | (Hne & c' & Hin & Hc')]; [now left |].
           right. split; [exact Hne |]. exists c'. split; [now right | exact Hc'].
        -- intros [H | (Hne & c' & [Hin | Hin] & Hc')]; [now left | discriminate |].
           right. split; [exact Hne |]. now exists c'.
      * exact Hm.
Qed.

Lemma conn_loop_spec (conns : list (option Py.connection)) :
  exists mp ti,
    Py.conn_loop conns = (mp, total_ports conns, ti) /\
    is_top_power conns mp /\
    (forall t, t ∈ ti <-> has_title conns t).
Proof.
  destruct (conn_loop_fold conns None 0%Z ∅) as (mp & ti & Hf & Ht & Hm).
  exists mp, ti. split; [| split].
  - unfold Py.conn_loop. rewrite Hf. f_equal.
  - destruct mp as [m|]; cbn [is_top_power].
    + destruct Hm as ([H | H] & Hall & _); [discriminate | now split].
    + apply Hm.
  - intros t. rewrite Ht. split; [| now right].
    intros [H | H]; [| exact H]. now apply elem_of_empty in H.
Qed.

Lemma row_of_power (p : Py.poi) :
  is_top_power (Py.Connections p) (Py.r_power_kw (Py.row_of p)).
Proof.
  destruct (conn_loop_spec (Py.Connections p)) as (mp & ti & Hl & Hm & _).
  unfold Py.row_of. now rewrite Hl.
Qed.

(** X16. For every record, the loop over its connectors computes: as
    [power_kw] the largest usable power (none when no connector has one),
    as [quantity] the sum of the ports, a connector without a usable count
    standing for one port, and no value when the sum is not positive. *)
Theorem X16_row_power_is_max_and_quantity_is_sum (p : Py.poi) :
  is_top_power (Py.Connections p) (Py.r_power_kw (Py.row_of p)) /\
  Py.r_quantity (Py.row_of p)
    = (if bool_decide (total_ports (Py.Connections p) > 0)%Z
       then Some (total_ports (Py.Connections p)) else None).
Proof.
  split; [apply row_of_power |].
  destruct (conn_loop_spec (Py.Connections p)) as (mp & ti & Hl & _).
  unfold Py.row_of. now rewrite Hl.
Qed.

(** X17. The [connection_types] text of a row joins, with a comma and a
    space, the non-empty connector titles of the record in ascending order
    (by character code), each title once. *)
Theorem X17_connector_titles_sorted_without_repeats (p : Py.poi) :
  exists l : list string,
    Py.r_connection_types (Py.row_of p) = String.concat ", " l /\
    StronglySorted String.le l /\ NoDup l /\
    forall t, In t l <-> has_title (Py.Connections p) t.
Proof.
  destruct (conn_loop_spec (Py.Connections p)) as (mp & ti & Hl & _ & Ht).
  exists (merge_sort String.le (elements ti)).
  unfold Py.row_of. rewrite Hl. cbn [Py.r_connection_types].
  split; [reflexivity |].
  split; [apply StronglySorted_merge_sort; apply _ |].
  split.
  - rewrite merge_sort_Permutation. apply NoDup_elements.
  - intros t. rewrite <- Ht, <- list_elem_of_In, merge_sort_Permutation.
    apply elem_of_elements.
Qed.

Lemma fast_iff_some_connector (conns : list (option Py.connection))
    (mp : option R) :
  is_top_power conns mp ->
  bool_decide (default 0 mp >= Py.FAST_KW) = true <->
  exists m, In m (usable_powers conns) /\ m >= 50.
Proof.
  intros Hm. rewrite bool_decide_eq_true. unfold Py.FAST_KW.
  destruct mp as [m|]; cbn [default from_option Datatypes.id is_top_power] in *.
  - destruct Hm as [Hin Hall]. split.
    + intros H. now exists m.
    + intros (m' & Hin' & H').
      rewrite Forall_forall in Hall.
      apply list_elem_of_In in Hin'. specialize (Hall _ Hin'). lra.
  - rewrite Hm. split; [lra | now intros (? & [] & _)].
Qed.

(** X18. The points handed to the route planner are exactly the records
    whose latitude and longitude are both numbers, at those coordinates;
    a point is marked fast if and only if some connector of its record has
    a usable power of at least 50 kW. *)
Theorem X18_points_are_the_located_records
    (pois : list Py.poi) (pt : Geo.point) :
  In pt (map Py.js_point (Py.enrich_dataframe (Py.normalise_ocm pois))) <->
  exists p, In p pois /\
    Py.Latitude p = Py.Val (pt_lat pt) /\
    Py.Longitude p = Py.Val (pt_lon pt) /\
    (pt_fast pt = true <->
     exists m, In m (usable_powers (Py.Connections p)) /\ m >= 50).
Proof.
  unfold Py.enrich_dataframe, Py.normalise_ocm.
  rewrite in_map_iff. split.
  - intros (e & <- & He).
    apply in_map_iff in He as (r & <- & Hr).
    apply filter_In in Hr as [Hr Hc].
    apply in_map_iff in Hr as (p & <- & Hp).
    exists p. split; [exact Hp |].
    pose proof (row_of_power p) as Hm.
    unfold Py.has_coords in Hc. unfold Py.js_point, Py.enrich.
    cbn [pt_lat pt_lon pt_fast Py.base Py.is_fast].
    assert (Py.r_lat (Py.row_of p) = Py.to_numeric (Py.Latitude p)) as Hlat
      by (unfold Py.row_of; now destruct (Py.conn_loop _) as [[? ?] ?]).
    assert (Py.r_lon (Py.row_of p) = Py.to_numeric (Py.Longitude p)) as Hlon
      by (unfold Py.row_of; now destruct (Py.conn_loop _) as [[? ?] ?]).
    rewrite Hlat, Hlon in *.
    destruct (Py.Latitude p) as [| |la|]; try discriminate.
    destruct (Py.Longitude p) as [| |lo|]; try discriminate.
    split; [reflexivity |]. split; [reflexivity |].
    now apply fast_iff_some_connector.
  - intros (p & Hp & Hla & Hlo & Hf).
    exists (Py.enrich (Py.row_of p)).
    assert (Py.r_lat (Py.row_of p) = Py.to_numeric (Py.Latitude p)) as Hlat
      by (unfold Py.row_of; now destruct (Py.conn_loop _) as [[? ?] ?]).
    assert (Py.r_lon (Py.row_of p) = Py.to_numeric (Py.Longitude p)) as Hlon
      by (unfold Py.row_of; now destruct (Py.conn_loop _) as [[? ?] ?]).
    split.
    + pose proof (row_of_power p) as Hm.
      apply fast_iff_some_connector in Hm.
      unfold Py.js_point, Py.enrich. cbn [Py.base Py.is_fast].
      rewrite Hlat, Hlon, Hla, Hlo. cbn [Py.to_numeric default from_option Datatypes.id].
      destruct pt as [la lo f]. cbn [pt_lat pt_lon pt_fast] in *.
      f_equal.
      destruct f, (bool_decide _); try reflexivity.
      * apply (proj2 Hm), (proj1 Hf). reflexivity.
      * symmetry. apply (proj2 Hf), (proj1 Hm). reflexivity.
    + apply in_map_iff. exists (Py.row_of p). split; [reflexivity |].
      apply filter_In. split; [apply in_map_iff; now exists p |].
      unfold Py.has_coords. now rewrite Hlat, Hlon, Hla, Hlo.
Qed.

Lemma X18_witness_one_fast_site :
  In (Geo.Point (-38) 145 true)
     (map Py.js_point (Py.enrich_dataframe (Py.normalise_ocm [site_150kw]))).
Proof.
  apply (proj2 (X18_points_are_the_located_records
                  [site_150kw] (Geo.Point (-38) 145 true))).
  exists site_150kw.
  split; [now left |]. split; [reflexivity |]. split; [reflexivity |].
  split; [| reflexivity].
  intros _. exists 150. split; [now left | lra].
Defined.

(** ** The snapshot box of the v7 script *)

Lemma filter_cons_count {A} (f : A -> bool) (x : A) (l : list A) :
  Z.of_nat (length (List.filter f (x :: l)))
  = (Z.b2z (f x) + Z.of_nat (length (List.filter f l)))%Z.
Proof. cbn [List.filter]. destruct (f x); cbn [length Z.b2z]; lia. Qed.

(** X19. The counts of the snapshot box against the markers drawn: the
    operational count is the number of green markers; the partial and down
    counts are at least the numbers of orange and red markers, a status
    that mentions several of the words being counted under each; and the
    unknown count is the number of grey markers less these two excesses,
    so it never exceeds the number of grey markers. *)
Theorem X19_v7_snapshot_counts_against_markers (statuses : list string) :
  let t := PyV7.status_counts statuses in
  (PyV7.operational t = markers "green" statuses /\
   PyV7.partial t >= markers "orange" statuses /\
   PyV7.down t >= markers "red" statuses /\
   PyV7.unknown t
     = markers "gray" statuses
       - (PyV7.partial t - markers "orange" statuses)
       - (PyV7.down t - markers "red" statuses) /\
   PyV7.unknown t <= markers "gray" statuses)%Z.
Proof.
  cbn zeta. unfold PyV7.status_counts.
  cbn [PyV7.operational PyV7.partial PyV7.down PyV7.unknown].
  unfold PyV7.count, markers.
  induction statuses as [|s l IH]; [cbn; lia |].
  rewrite !filter_cons_count. cbn [length]. cbn beta.
  repeat match goal with
         | |- context [Z.of_nat (length (List.filter ?f l))] =>
             let n := fresh "n" in
             set (n := Z.of_nat (length (List.filter f l))) in *; clearbody n
         end.
  rewrite Nat2Z.inj_succ.
  set (len := Z.of_nat (length l)) in *; clearbody len.
  unfold PyV7.marker_color, PyV7.str_contains.
  destruct (Py.contains "operational" (Py.lower s)),
           (Py.contains "partial" (Py.lower s)),
           (Py.contains "down" (Py.lower s));
    cbn [String.eqb Ascii.eqb Bool.eqb Z.b2z]; lia.
Qed.

(** ** Labels of the snippet *)

Lemma prefix_ci_before (sep : ascii) (p x y : string) :
  avoids sep p = true ->
  Str.prefix_ci p (x ++ String sep y) = true -> Str.prefix_ci p x = true.
Proof.
  revert p. induction x as [|b x IH]; intros p Hp H.
  - destruct p as [|a p]; [reflexivity |].
    cbn [avoids] in Hp. cbn [String.append Str.prefix_ci] in H.
    apply andb_true_iff in Hp as [Hp _]. apply andb_true_iff in H as [H _].
    rewrite H in Hp. discriminate.
  - destruct p as [|a p]; [reflexivity |].
    cbn [avoids] in Hp. cbn [String.append Str.prefix_ci] in H |- *.
    apply andb_true_iff in Hp as [_ Hp]. apply andb_true_iff in H as [Ha H].
    rewrite Ha. exact (IH p Hp H).
Qed.

Lemma contains_ci_split (sep a : ascii) (p x y : string) :
  avoids sep (String a p) = true ->
  Str.contains_ci (String a p) (x ++ String sep y) = true ->
  Str.contains_ci (String a p) x = true \/
  Str.contains_ci (String a p) y = true.
Proof.
  intros Hp. induction x as [|b x IH]; intros H.
  - right. cbn [String.append] in H.
    change (Str.contains_ci (String a p) (String sep y))
      with (Str.prefix_ci (String a p) (String sep y)
            || Str.contains_ci (String a p) y) in H.
    apply orb_true_iff in H as [H | H]; [| exact H].
    cbn [avoids] in Hp. cbn [Str.prefix_ci] in H.
    apply andb_true_iff in Hp as [Hp _]. apply andb_true_iff in H as [H _].
    rewrite H in Hp. discriminate.
  - cbn [String.append] in H.
    change (Str.contains_ci (String a p) (String b (x ++ String sep y)))
      with (Str.prefix_ci (String a p) (String b x ++ String sep y)
            || Str.contains_ci (String a p) (x ++ String sep y)) in H.
    change (Str.contains_ci (String a p) (String b x))
      with (Str.prefix_ci (String a p) (String b x)
            || Str.contains_ci (String a p) x).
    apply orb_true_iff in H as [H | H].
    + left.
      now rewrite (prefix_ci_before sep (String a p) (String b x) y Hp H).
    + destruct (IH H) as [H' | H']; [left | now right].
      rewrite H'. apply orb_true_r.
Qed.

Lemma contains_ci_join (a : ascii) (p : string) (parts : list string) :
  avoids "," (String a p) = true ->
  avoids " " (String a p) = true ->
  Str.contains_ci (String a p) (Str.join_comma parts) = true ->
  exists part, In part parts /\ Str.contains_ci (String a p) part = true.
Proof.
  intros Hc Hs. unfold Str.join_comma.
  induction parts as [|x parts IH]; intros H.
  - cbn in H. cbn [avoids] in Hc. discriminate.
  - destruct parts as [|y parts].
    + exists x. split; [now left | exact H].
    + change (String.concat ", " (x :: y :: parts))
        with (x ++ String "," (String " " (String.concat ", " (y :: parts))))%string
        in H.
      apply contains_ci_split in H as [H | H]; [| | exact Hc].
      * exists x. split; [now left | exact H].
      * apply (contains_ci_split " " a p EmptyString) in H as [H | H];
          [| | exact Hs].
        -- cbn in H. discriminate.
        -- destruct (IH H) as (part & Hin & Hp).
           exists part. split; [now right | exact Hp].
Qed.

(** X12. The label that the snippet builds from a display name never
    mentions Australia, in any case of the letters: it joins at most three
    parts, each trimmed, none of which mentions Australia or is a four-digit
    postcode. *)
Theorem X12_snippet_label_never_mentions_australia (name : string) :
  Str.contains_ci "Australia" (snippet_label name) = false /\
  exists parts,
    snippet_label name = Str.join_comma parts /\
    (length parts <= 3)%nat /\
    Forall (fun part => Str.trim part = part /\
                        Str.contains_ci "Australia" part = false /\
                        Str.four_digits part = false) parts.
Proof.
  set (keep := fun part => negb (Str.contains_ci "Australia" part)
                           && negb (Str.four_digits part)).
  set (parts := firstn 3 (List.filter keep
                            (map Str.trim (Str.split_comma name)))).
  assert (Forall (fun part => Str.trim part = part /\
                              Str.contains_ci "Australia" part = false /\
                              Str.four_digits part = false) parts) as Hall.
  { apply Forall_forall. intros part Hin.
    apply list_elem_of_In in Hin.
    assert (In part (List.filter keep (map Str.trim (Str.split_comma name))))
      as Hin'.
    { rewrite <- (firstn_skipn 3 (List.filter keep _)).
      apply in_or_app. now left. }
    apply filter_In in Hin' as [Hin' Hk].
    clear Hin. rename Hin' into Hin.
    apply in_map_iff in Hin as (raw & <- & _).
    apply andb_true_iff in Hk as [Ha Hd].
    apply negb_true_iff in Ha, Hd.
    split; [apply trim_idem | now split]. }
  split.
  - change (snippet_label name) with (Str.join_comma parts).
    destruct (Str.contains_ci "Australia" (Str.join_comma parts)) eqn:H;
      [| reflexivity].
    apply contains_ci_join in H as (part & Hin & Hp); [| reflexivity ..].
    rewrite Forall_forall in Hall.
    apply list_elem_of_In in Hin.
    destruct (Hall _ Hin) as (_ & Ha & _). congruence.
  - exists parts. split; [reflexivity |].
    split; [apply firstn_le_length |].
    exact Hall.
Qed.

(** ** The snapshot box of the v6 script *)

Lemma status_colors_of_classes :
  Py.status_color (Some "operational"%string) = "#16a34a"%string /\
  Py.status_color (Some "partial"%string) = "#f59e0b"%string /\
  Py.status_color (Some "down"%string) = "#ef4444"%string /\
  Py.status_color (Some "unknown"%string) = "#6b7280"%string.
Proof. repeat split; vm_compute; reflexivity. Qed.

Lemma status_class_cases (s : option string) :
  Py.classify_status_simple s = "operational"%string \/
  Py.classify_status_simple s = "partial"%string \/
  Py.classify_status_simple s = "down"%string \/
  Py.classify_status_simple s = "unknown"%string.
Proof.
  destruct s as [[|a t]|]; try (right; right; right; reflexivity).
  rewrite classify_status_cons. unfold status_of_lower.
  repeat match goal with |- context [if ?b then _ else _] => destruct b end;
    tauto.
Qed.

(** X20. In the v6 script the status classes partition the table: the
    four counts of the snapshot box add up to the number of sites, and
    each count is the number of sites whose marker is drawn in the colour
    of its class. *)
Theorem X20_v6_status_counts_partition_the_sites (rows : list Py.row) :
  let df := Py.enrich_dataframe rows in
  let t := Py.status_tally df in
  (Py.n_oper t + Py.n_partial t + Py.n_down t + Py.n_unknown t
   = Py.tot_sites t /\
   Py.tot_sites t = Z.of_nat (length rows) /\
   Py.n_oper t = drawn "#16a34a" df /\
   Py.n_partial t = drawn "#f59e0b" df /\
   Py.n_down t = drawn "#ef4444" df /\
   Py.n_unknown t = drawn "#6b7280" df)%Z.
Proof.
  cbn zeta. unfold Py.status_tally.
  cbn [Py.n_oper Py.n_partial Py.n_down Py.n_unknown Py.tot_sites].
  unfold Py.status_count, drawn, Py.marker_colors, Py.enrich_dataframe.
  destruct status_colors_of_classes as (Cg & Co & Cr & Cu).
  induction rows as [|r rows IH]; [cbn; lia |].
  cbn [map]. rewrite !filter_cons_count. cbn [length]. cbn beta.
  repeat match goal with
         | |- context [Z.of_nat (length (List.filter ?f ?l))] =>
             let n := fresh "n" in
             set (n := Z.of_nat (length (List.filter f l))) in *; clearbody n
         end.
  rewrite !Nat2Z.inj_succ, !length_map in *.
  set (len := Z.of_nat (length rows)) in *; clearbody len.
  change (Py.status_simple (Py.enrich r))
    with (Py.classify_status_simple (Py.r_status r)).
  destruct (status_class_cases (Py.r_status r)) as [-> | [-> | [-> | ->]]];
    rewrite ?Cg, ?Co, ?Cr, ?Cu;
    cbn [String.eqb Ascii.eqb Bool.eqb Z.b2z]; lia.
Qed.
